(** * LDAPS certificate chain retriever: chain validation and bundle assembly

    A shallow embedding of [ldaps_cert_chain_retriever.py]:
    [is_self_signed], [validate_certificate_chain], [format_certificate],
    the dictionary built at the end of [get_ldap_ssl_certificates] and the
    bundle loop of [main].

    The X.509 library ([cryptography.x509]) is an external collaborator: its
    certificate type, its distinguished names and its DER/PEM codecs are the
    fields of the class [X509Backend].  Python exceptions are values of
    [exn]; a computation is a pair of the calls it made into the parsing
    collaborator and of its outcome (a returned value or a raised
    exception). *)

From Stdlib Require Import List String Ascii Strings.Byte ZArith NArith Bool Lia Arith.
From Stdlib Require Import DecimalString.
Import ListNotations.

Local Open Scope string_scope.
Local Open Scope Z_scope.

(** ** Python values *)

(** A [bytes] object. *)
Definition bytes := list byte.

(** A [str] is held as its UTF-8 encoding: [+] on [str] is [append], and
    [.encode()] / [.decode('utf-8')] move between [string] and [bytes]
    without changing the bytes. *)
Definition str_encode (s : string) : bytes := list_byte_of_string s.

(** The exceptions the program meets, each with the text [str(e)] gives.
    All are instances of [Exception], the class the handler of
    [validate_certificate_chain] catches. *)
Inductive exn : Type :=
| ValueError (msg : string)
| TypeError (msg : string)
| IndexError (msg : string)
| UnicodeDecodeError (msg : string)
| OtherException (msg : string).

(** [str(e)] *)
Definition str_of_exn (e : exn) : string :=
  match e with
  | ValueError m | TypeError m | IndexError m
  | UnicodeDecodeError m | OtherException m => m
  end.

(** What a call does: it returns a value or raises. *)
Inductive outcome (A : Type) : Type :=
| Return (a : A)
| Raise (e : exn).
Arguments Return {A} a.
Arguments Raise {A} e.

(** [format_certificate] returns a [str] (PEM) or a [bytes] (DER). *)
Inductive pyval : Type :=
| PyStr (s : string)
| PyBytes (b : bytes).

(** The one-character string holding a double quote. *)
Definition dquote : string := String (ascii_of_nat 34) EmptyString.

(** [a + b] on [str] and [bytes]; mixing the two is a [TypeError]. *)
Definition py_add (a b : pyval) : outcome pyval :=
  match a, b with
  | PyStr x, PyStr y => Return (PyStr (x ++ y))
  | PyBytes x, PyBytes y => Return (PyBytes (x ++ y)%list)
  | PyStr _, PyBytes _ =>
      Raise (TypeError ("can only concatenate str (not " ++ dquote ++ "bytes"
                        ++ dquote ++ ") to str"))
  | PyBytes _, PyStr _ =>
      Raise (TypeError "can't concat str to bytes")
  end.

(** ** Integers, indexing and ranges *)

(** [len(l)] *)
Definition len {A : Type} (l : list A) : Z := Z.of_nat (List.length l).

(** [l[i]]: a negative index counts from the end; an index outside the list
    raises [IndexError]. *)
Definition getitem {A : Type} (l : list A) (i : Z) : outcome A :=
  let j := if i <? 0 then i + len l else i in
  if (0 <=? j) && (j <? len l) then
    match nth_error l (Z.to_nat j) with
    | Some x => Return x
    | None => Raise (IndexError "list index out of range")
    end
  else Raise (IndexError "list index out of range").

(** [range(n)]: 0, 1, ..., n-1; empty when [n <= 0]. *)
Definition range (n : Z) : list Z := map Z.of_nat (seq 0 (Z.to_nat n)).

(** [l[1:]] *)
Definition slice_from_1 {A : Type} (l : list A) : list A := skipn 1 l.

(** [f"{i}"] for an [int]: its decimal digits. *)
Definition str_of_int (i : Z) : string := NilZero.string_of_int (Z.to_int i).

(** ** [bytes.decode('utf-8')] *)

Definition byte_in (lo hi : N) (b : byte) : bool :=
  (lo <=? Byte.to_N b)%N && (Byte.to_N b <=? hi)%N.

(** A continuation byte, 80..BF. *)
Definition utf8_cont (b : byte) : bool := byte_in 128 191 b.

(** Well-formed UTF-8: no overlong form, no surrogate, nothing above
    U+10FFFF (the strict codec Python uses). *)
Fixpoint utf8_valid (bs : bytes) : bool :=
  match bs with
  | [] => true
  | b0 :: t0 =>
      if byte_in 0 127 b0 then utf8_valid t0
      else if byte_in 194 223 b0 then
        match t0 with
        | b1 :: t1 => utf8_cont b1 && utf8_valid t1
        | _ => false
        end
      else if byte_in 224 239 b0 then
        match t0 with
        | b1 :: b2 :: t2 =>
            (if byte_in 224 224 b0 then byte_in 160 191 b1
             else if byte_in 237 237 b0 then byte_in 128 159 b1
             else utf8_cont b1)
            && utf8_cont b2 && utf8_valid t2
        | _ => false
        end
      else if byte_in 240 244 b0 then
        match t0 with
        | b1 :: b2 :: b3 :: t3 =>
            (if byte_in 240 240 b0 then byte_in 144 191 b1
             else if byte_in 244 244 b0 then byte_in 128 143 b1
             else utf8_cont b1)
            && utf8_cont b2 && utf8_cont b3 && utf8_valid t3
        | _ => false
        end
      else false
  end.

(** [b.decode('utf-8')]; the text of the error (which names the offending
    byte and its position) is not reproduced. *)
Definition bytes_decode (b : bytes) : outcome string :=
  if utf8_valid b then Return (string_of_list_byte b)
  else Raise (UnicodeDecodeError "'utf-8' codec can't decode bytes").

(** ** Computations *)

(** A call into the certificate parsing collaborator. *)
Inductive call : Type :=
| LoadDer (data : bytes)
| LoadPem (data : bytes).

(** A computation: the parser calls it made, in order, and its outcome. *)
Definition M (A : Type) : Type := (list call * outcome A)%type.

Definition ret {A : Type} (a : A) : M A := ([], Return a).

Definition raise {A : Type} (e : exn) : M A := ([], Raise e).

Definition lift {A : Type} (o : outcome A) : M A := ([], o).

Definition bind {A B : Type} (m : M A) (k : A -> M B) : M B :=
  match m with
  | (log, Raise e) => (log, Raise e)
  | (log, Return a) => let (log', o) := k a in ((log ++ log')%list, o)
  end.

(** [try: m  except Exception as e: handler e] *)
Definition try_except {A : Type} (m : M A) (handler : exn -> M A) : M A :=
  match m with
  | (log, Return a) => (log, Return a)
  | (log, Raise e) => let (log', o) := handler e in ((log ++ log')%list, o)
  end.

Definition calls {A : Type} (m : M A) : list call := fst m.
Definition result {A : Type} (m : M A) : outcome A := snd m.

Declare Scope py_scope.
Delimit Scope py_scope with py.
Notation "x <- m ;; k" := (bind m (fun x => k))
  (at level 61, m at next level, right associativity) : py_scope.
Local Open Scope py_scope.

(** A list comprehension [[f x for x in xs]] whose [f] may raise. *)
Fixpoint comprehension {A B : Type} (f : A -> M B) (xs : list A) : M (list B) :=
  match xs with
  | [] => ret []
  | x :: xs' =>
      y <- f x ;;
      ys <- comprehension f xs' ;;
      ret (y :: ys)
  end.

(** A [for] loop whose body may [return]: [Some v] leaves the function with
    [v], [None] goes on with the next element. *)
Fixpoint for_returning {A R : Type} (xs : list A) (body : A -> M (option R))
  : M (option R) :=
  match xs with
  | [] => ret None
  | x :: xs' =>
      r <- body x ;;
      match r with
      | Some v => ret (Some v)
      | None => for_returning xs' body
      end
  end.

(** A [for] loop that updates one local variable. *)
Fixpoint for_updating {A S : Type} (xs : list A) (body : S -> A -> M S) (s : S)
  : M S :=
  match xs with
  | [] => ret s
  | x :: xs' => s' <- body s x ;; for_updating xs' body s'
  end.

(** ** Text: substrings and lines *)

(** [needle in hay] on [str]. *)
Fixpoint str_contains (needle hay : string) : bool :=
  prefix needle hay
  || match hay with
     | EmptyString => false
     | String _ hay' => str_contains needle hay'
     end.

(** The one-character string ['\n']. *)
Definition line_feed : string := String (ascii_of_nat 10) EmptyString.

(** ['\n'.join(lines)] *)
Definition join_lines (lines : list string) : string :=
  String.concat line_feed lines.

(** The one-byte line boundaries of [str.splitlines]: line feed, vertical
    tab, form feed, and the file, group and record separators (carriage
    return is treated apart, for it may be followed by a line feed). *)
Definition line_break (c : ascii) : bool :=
  let n := N_of_ascii c in
  (n =? 10)%N || (n =? 11)%N || (n =? 12)%N
  || (n =? 28)%N || (n =? 29)%N || (n =? 30)%N.

(** [str.splitlines()] read from the left, [cur] being the line under way.
    The boundaries are those of Python: the bytes of [line_break], carriage
    return with or without a line feed after it, and, in their UTF-8 form,
    U+0085 (C2 85), U+2028 and U+2029 (E2 80 A8 and E2 80 A9).  Text after
    the last boundary is a line when it is not empty. *)
Fixpoint splitlines_from (cur s : string) : list string :=
  match s with
  | EmptyString =>
      match cur with EmptyString => [] | String _ _ => [cur] end
  | String c rest =>
      if line_break c then cur :: splitlines_from EmptyString rest
      else if (N_of_ascii c =? 13)%N then
        match rest with
        | String c1 rest1 =>
            if (N_of_ascii c1 =? 10)%N
            then cur :: splitlines_from EmptyString rest1
            else cur :: splitlines_from EmptyString rest
        | EmptyString => cur :: splitlines_from EmptyString rest
        end
      else if (N_of_ascii c =? 194)%N then
        match rest with
        | String c1 rest1 =>
            if (N_of_ascii c1 =? 133)%N
            then cur :: splitlines_from EmptyString rest1
            else splitlines_from (cur ++ String c EmptyString) rest
        | EmptyString => splitlines_from (cur ++ String c EmptyString) rest
        end
      else if (N_of_ascii c =? 226)%N then
        match rest with
        | String c1 (String c2 rest2) =>
            if (N_of_ascii c1 =? 128)%N
               && ((N_of_ascii c2 =? 168)%N || (N_of_ascii c2 =? 169)%N)
            then cur :: splitlines_from EmptyString rest2
            else splitlines_from (cur ++ String c EmptyString) rest
        | _ => splitlines_from (cur ++ String c EmptyString) rest
        end
      else splitlines_from (cur ++ String c EmptyString) rest
  end.

(** [s.splitlines()] *)
Definition splitlines (s : string) : list string :=
  splitlines_from EmptyString s.

(** ** Reading the certificates out of the output of openssl *)

Definition begin_marker : string := "-----BEGIN CERTIFICATE-----".

Definition end_marker : string := "-----END CERTIFICATE-----".

(** The three variables of the loop of [get_ldap_ssl_certificates] over
    the lines of the output: [certs], [current_cert] and [in_cert]. *)
Record scan_state : Type := {
  scan_certs : list string;
  scan_current_cert : list string;
  scan_in_cert : bool
}.

(** One iteration of that loop. *)
Definition scan_line (st : scan_state) (line : string) : scan_state :=
  if str_contains begin_marker line then
    {| scan_certs := scan_certs st;
       scan_current_cert := [line];
       scan_in_cert := true |}
  else if str_contains end_marker line then
    let current_cert := (scan_current_cert st ++ [line])%list in
    {| scan_certs := (scan_certs st ++ [join_lines current_cert])%list;
       scan_current_cert := current_cert;
       scan_in_cert := false |}
  else if scan_in_cert st then
    {| scan_certs := scan_certs st;
       scan_current_cert := (scan_current_cert st ++ [line])%list;
       scan_in_cert := true |}
  else st.

(** The loop, from the lines of the output to the list [certs] of the PEM
    blocks found. *)
Definition extract_certificates (lines : list string) : list string :=
  scan_certs
    (fold_left scan_line lines
       {| scan_certs := []; scan_current_cert := []; scan_in_cert := false |}).

(** ** The X.509 library *)

(** [serialization.Encoding], as far as the program uses it. *)
Inductive Encoding : Type := PEM | DER.

(** What the program uses of [cryptography.x509]: distinguished names with
    their [==], the fields of a parsed certificate, the two loaders (which
    raise on malformed input) and [Certificate.public_bytes].  The library
    decodes the two names of a certificate when they are read, not when the
    certificate is loaded: [cert.subject] and [cert.issuer] can raise on a
    certificate that loaded. *)
Class X509Backend : Type := {
  Name : Type;
  Name_eq_dec : forall a b : Name, {a = b} + {a <> b};
  Certificate : Type;
  subject : Certificate -> outcome Name;
  issuer : Certificate -> outcome Name;
  serial_number : Certificate -> Z;
  not_valid_before_utc : Certificate -> Z;
  not_valid_after_utc : Certificate -> Z;
  load_der_x509_certificate : bytes -> outcome Certificate;
  load_pem_x509_certificate : bytes -> outcome Certificate;
  public_bytes : Encoding -> Certificate -> bytes
}.

(** ** The program *)

Section Program.

Context {X : X509Backend}.

(** [a == b] on distinguished names. *)
Definition Name_eqb (a b : Name) : bool :=
  if Name_eq_dec a b then true else false.

(** [x509.load_der_x509_certificate(data, default_backend())] *)
Definition load_der (data : bytes) : M Certificate :=
  ([LoadDer data], load_der_x509_certificate data).

(** [x509.load_pem_x509_certificate(data, default_backend())] *)
Definition load_pem (data : bytes) : M Certificate :=
  ([LoadPem data], load_pem_x509_certificate data).

(** [is_self_signed(cert)]: [cert.issuer] is read, then [cert.subject],
    then the two are compared. *)
Definition is_self_signed (cert : Certificate) : outcome bool :=
  match issuer cert with
  | Raise e => Raise e
  | Return issuer_dn =>
      match subject cert with
      | Raise e => Raise e
      | Return subject_dn => Return (Name_eqb issuer_dn subject_dn)
      end
  end.

(** [validate_certificate_chain(cert_ders)]; the local variable [issuer] of
    the loop is [issuer'] here. *)
Definition validate_certificate_chain (cert_ders : list bytes)
  : M (bool * string) :=
  if len cert_ders =? 0 then
    ret (false, "No certificates found in chain")
  else
    try_except
      (certs <- comprehension load_der cert_ders ;;
       single <- (if len certs =? 1 then
                    c0 <- lift (getitem certs 0) ;;
                    lift (is_self_signed c0)
                  else ret false) ;;
       if single then ret (true, "Valid self-signed certificate")
       else
         stopped <- for_returning (range (len certs - 1))
           (fun i =>
              cert <- lift (getitem certs i) ;;
              issuer' <- lift (getitem certs (i + 1)) ;;
              cert_issuer_dn <- lift (issuer cert) ;;
              next_cert_subject_dn <- lift (subject issuer') ;;
              if negb (Name_eqb cert_issuer_dn next_cert_subject_dn) then
                self_signed <- lift (is_self_signed cert) ;;
                if self_signed then
                  ret (Some (true,
                    "Chain contains self-signed certificate at position "
                    ++ str_of_int i))
                else
                  ret (Some (false,
                    "Certificate chain broken at position " ++ str_of_int i
                    ++ ": issuer does not match next certificate's subject"))
              else ret None) ;;
         match stopped with
         | Some verdict => ret verdict
         | None =>
             last_cert <- lift (getitem certs (-1)) ;;
             self_signed <- lift (is_self_signed last_cert) ;;
             if self_signed then
               ret (true,
                 "Certificate chain is valid and ends with self-signed root CA")
             else
               ret (true, "Certificate chain is valid and properly ordered")
         end)
      (fun e =>
         ret (false, "Error validating certificate chain: " ++ str_of_exn e)).

(** [format_certificate(cert_data, format)] *)
Definition format_certificate (cert_data : bytes) (format : string) : M pyval :=
  cert <- load_der cert_data ;;
  if (format =? "pem")%string then
    text <- lift (bytes_decode (public_bytes PEM cert)) ;;
    ret (PyStr text)
  else if (format =? "der")%string then
    ret (PyBytes (public_bytes DER cert))
  else
    raise (ValueError ("Unsupported format: " ++ format)).

(** The dictionary [get_ldap_ssl_certificates] returns. *)
Record certificates_dict : Type := {
  peer_certificate : bytes;
  peer_certificate_chain : list bytes
}.

(** The [return] statement of [get_ldap_ssl_certificates], from the list
    [cert_ders] of the certificates the server sent. *)
Definition returned_certificates (cert_ders : list bytes)
  : outcome certificates_dict :=
  match getitem cert_ders 0 with
  | Raise e => Raise e
  | Return first =>
      Return {| peer_certificate := first;
                peer_certificate_chain :=
                  if len cert_ders >? 1 then slice_from_1 cert_ders else [] |}
  end.

(** The bundle [main] builds from that dictionary and [args.format]. *)
Definition main_bundle (certificates : certificates_dict) (format : string)
  : M pyval :=
  bundle <- format_certificate (peer_certificate certificates) format ;;
  for_updating (peer_certificate_chain certificates)
    (fun bundle cert =>
       if (format =? "pem")%string then
         block <- format_certificate cert format ;;
         lift (py_add bundle block)
       else
         lift (py_add bundle (PyBytes cert)))
    bundle.

(** The loop of [get_ldap_ssl_certificates] that loads each PEM block and
    writes it again as DER. *)
Definition pem_blocks_to_der (certs : list string) : M (list bytes) :=
  for_updating certs
    (fun cert_ders cert_pem =>
       cert <- load_pem (str_encode cert_pem) ;;
       ret (cert_ders ++ [public_bytes DER cert])%list)
    [].

(** [get_ldap_ssl_certificates] with [debug=False], from the point where
    openssl has answered: [stdout] is what it wrote on its standard output.
    The two [except] clauses of the function raise again what they caught,
    so an exception leaves the function as it is. *)
Definition certificates_from_stdout (stdout : bytes) : M certificates_dict :=
  output <- lift (bytes_decode stdout) ;;
  let certs := extract_certificates (splitlines output) in
  if len certs =? 0 then
    raise (OtherException "No certificates found in the server response")
  else
    cert_ders <- pem_blocks_to_der certs ;;
    verdict <- validate_certificate_chain cert_ders ;;
    lift (returned_certificates cert_ders).

End Program.

(** ** The command line tool *)

(** What the tool does that shows from outside: it runs openssl against a
    server, calls the certificate loaders, prints, writes a file. *)
Inductive event : Type :=
| RunOpenssl (host : string) (port : Z)
| Loaded (c : call)
| Printed (v : pyval)
| WroteFile (path : string) (binary : bool) (data : pyval).

(** The machine the tool runs on: what [openssl s_client -connect host:port
    -showcerts -servername host] writes on its standard output (or the
    exception starting it raises), and what opening [path] and writing
    [data] to it does ([binary] for the mode ['wb'], text mode ['w']
    otherwise). *)
Class Host : Type := {
  openssl_s_client : string -> Z -> outcome bytes;
  write_file : string -> bool -> pyval -> outcome unit
}.

(** A computation of the tool: its events, in order, and its outcome. *)
Definition IO (A : Type) : Type := (list event * outcome A)%type.

Definition io_ret {A : Type} (a : A) : IO A := ([], Return a).

Definition io_bind {A B : Type} (m : IO A) (k : A -> IO B) : IO B :=
  match m with
  | (log, Raise e) => (log, Raise e)
  | (log, Return a) => let (log', o) := k a in ((log ++ log')%list, o)
  end.

(** A computation that only calls the loaders, as one of the tool. *)
Definition io_run {A : Type} (m : M A) : IO A :=
  (map Loaded (calls m), result m).

(** [print(v)] *)
Definition print (v : pyval) : IO unit := ([Printed v], Return tt).

(** The class [Colors], as far as [main] uses it. *)
Definition escape : string := String (ascii_of_nat 27) EmptyString.
Definition Colors_BLUE : string := escape ++ "[94m".
Definition Colors_RED : string := escape ++ "[91m".
Definition Colors_ENDC : string := escape ++ "[0m".

(** [print_colored(message, color)] *)
Definition print_colored (message color : string) : IO unit :=
  print (PyStr (color ++ message ++ Colors_ENDC)).

(** How [main] ends: it returns, or [sys.exit(code)] ends the process. *)
Inductive ending : Type :=
| Returned
| Exited (code : Z).

(** The arguments [main] reads after [parse_args], [args.debug] being
    false. *)
Record arguments : Type := {
  args_server : string;
  args_port : Z;
  args_test : bool;
  args_format : string;
  args_output : option string
}.

(** [if args.output:] is true of a path that is not empty. *)
Definition output_path (args : arguments) : option string :=
  match args_output args with
  | Some (String c rest) => Some (String c rest)
  | _ => None
  end.

(** [str(last_error)], [last_error] being [None] before any failure. *)
Definition str_of_last_error (last_error : option exn) : string :=
  match last_error with
  | Some e => str_of_exn e
  | None => "None"
  end.

Section Tool.

Context {X : X509Backend} {H : Host}.

(** [get_ldap_ssl_certificates(ldap_server_host, port)] with [debug=False]:
    openssl is run, and the certificates are read out of what it wrote. *)
Definition get_ldap_ssl_certificates (ldap_server_host : string) (port : Z)
  : IO certificates_dict :=
  io_bind ([RunOpenssl ldap_server_host port],
           openssl_s_client ldap_server_host port)
    (fun stdout => io_run (certificates_from_stdout stdout)).

(** What both branches of [main] do inside their [try]: retrieve, build
    the bundle, then write it to [args.output] or print it. *)
Definition retrieve_and_output (args : arguments) (server : string)
  : IO unit :=
  io_bind (get_ldap_ssl_certificates server (args_port args))
    (fun certificates =>
       io_bind (io_run (main_bundle certificates (args_format args)))
         (fun bundle =>
            match output_path args with
            | Some path =>
                let binary := (args_format args =? "der")%string in
                ([WroteFile path binary bundle],
                 write_file path binary bundle)
            | None => print bundle
            end)).

(** The loop of [main] over the test servers, [last_error] being the
    exception of the server before. *)
Fixpoint try_test_servers (args : arguments) (test_servers : list string)
  (last_error : option exn) : list event * ending :=
  match test_servers with
  | [] =>
      (fst (print_colored
              ("Error: All test servers failed. Last error: "
               ++ str_of_last_error last_error) Colors_RED),
       Exited 1)
  | server :: rest =>
      match io_bind (print_colored ("Trying test server: " ++ server)
                       Colors_BLUE)
              (fun _ => retrieve_and_output args server) with
      | (log, Return _) => (log, Returned)
      | (log, Raise e) =>
          let (log', how) := try_test_servers args rest (Some e) in
          ((log ++ log')%list, how)
      end
  end.

(** [main] from [parse_args] on. *)
Definition main_after_parse_args (args : arguments) : list event * ending :=
  if args_test args then
    try_test_servers args ["ldap.google.com"; "ldap.forumsys.com"] None
  else
    match retrieve_and_output args (args_server args) with
    | (log, Return _) => (log, Returned)
    | (log, Raise e) =>
        ((log ++ fst (print_colored ("Error: " ++ str_of_exn e) Colors_RED))
           %list,
         Exited 1)
    end.

End Tool.

(** The events that are a run of openssl. *)
Definition runs_openssl (ev : event) : bool :=
  match ev with
  | RunOpenssl _ _ => true
  | _ => false
  end.

(** ** What is asked of the library *)

(** Same subject, issuer, serial number and validity window. *)
Definition same_fields {X : X509Backend} (a b : Certificate) : Prop :=
  subject a = subject b /\ issuer a = issuer b
  /\ serial_number a = serial_number b
  /\ not_valid_before_utc a = not_valid_before_utc b
  /\ not_valid_after_utc a = not_valid_after_utc b.

(** The PEM block of a certificate, as text. *)
Definition pem_block {X : X509Backend} (c : Certificate) : string :=
  string_of_list_byte (public_bytes PEM c).

(** Strings put one after the other, nothing in between. *)
Definition str_concat (blocks : list string) : string :=
  fold_right append EmptyString blocks.

(** The codecs agree with each other: what [public_bytes] writes, the
    matching loader reads back with the same fields, and a PEM block is
    text. *)
Class LawfulBackend (X : X509Backend) : Prop := {
  der_reads_back : forall c : Certificate,
    exists c', load_der_x509_certificate (public_bytes DER c) = Return c'
               /\ same_fields c c';
  pem_reads_back : forall c : Certificate,
    exists c', load_pem_x509_certificate (public_bytes PEM c) = Return c'
               /\ same_fields c c';
  pem_is_text : forall c : Certificate,
    utf8_valid (public_bytes PEM c) = true
}.

(** Every element of [cert_ders] loads, to the matching element of
    [certs]. *)
Definition parses_to {X : X509Backend}
  (cert_ders : list bytes) (certs : list Certificate) : Prop :=
  Forall2 (fun d c => load_der_x509_certificate d = Return c) cert_ders certs.

(** Every PEM block of [blocks] loads, to the matching element of
    [certs]. *)
Definition pem_parses_to {X : X509Backend}
  (blocks : list string) (certs : list Certificate) : Prop :=
  Forall2 (fun block c => load_pem_x509_certificate (str_encode block)
                          = Return c) blocks certs.

(** What comparing [c.issuer] with [c'.subject] can come to: the two names
    are read and are equal, they are read and differ, or reading one of
    them raises (the issuer is read first). *)
Definition pair_matches {X : X509Backend} (c c' : Certificate) : Prop :=
  exists n : Name, issuer c = Return n /\ subject c' = Return n.

Definition pair_differs {X : X509Backend} (c c' : Certificate) : Prop :=
  exists a b : Name, issuer c = Return a /\ subject c' = Return b /\ a <> b.

Definition pair_raises {X : X509Backend} (c c' : Certificate) (e : exn)
  : Prop :=
  issuer c = Raise e
  \/ exists a : Name, issuer c = Return a /\ subject c' = Raise e.

(** Both names of every certificate can be read. *)
Definition names_readable {X : X509Backend} (certs : list Certificate)
  : Prop :=
  Forall (fun c => (exists s, subject c = Return s)
                   /\ (exists i, issuer c = Return i)) certs.

(** The verdict the handler of [validate_certificate_chain] returns. *)
Definition error_verdict (e : exn) : bool * string :=
  (false, "Error validating certificate chain: " ++ str_of_exn e).

(** What the [try] block comes to once the handler has had its say: the
    verdict it returned, or the handler's verdict on what it raised. *)
Definition caught (o : outcome (bool * string)) : bool * string :=
  match o with
  | Return verdict => verdict
  | Raise e => error_verdict e
  end.

(** Every adjacent pair before position [i] matches. *)
Definition matches_before {X : X509Backend} (certs : list Certificate) (i : nat) : Prop :=
  forall (j : nat) (c c' : Certificate),
    (j < i)%nat ->
    nth_error certs j = Some c -> nth_error certs (S j) = Some c' ->
    pair_matches c c'.

(** Every adjacent pair matches. *)
Definition all_match {X : X509Backend} (certs : list Certificate) : Prop :=
  forall (j : nat) (c c' : Certificate),
    nth_error certs j = Some c -> nth_error certs (S j) = Some c' ->
    pair_matches c c'.

(** ** The lines of a certificate in the output of openssl *)

(** A line the loop opens a block at. *)
Definition is_begin_line (line : string) : Prop :=
  str_contains begin_marker line = true.

(** A line the loop closes a block at. *)
Definition is_end_line (line : string) : Prop :=
  str_contains begin_marker line = false
  /\ str_contains end_marker line = true.

(** A line with neither marker. *)
Definition is_plain_line (line : string) : Prop :=
  str_contains begin_marker line = false
  /\ str_contains end_marker line = false.

(** A PEM block as lines: the line with the opening marker, the lines of
    base64, the line with the closing marker. *)
Record pem_lines : Type := {
  opening_line : string;
  base64_lines : list string;
  closing_line : string
}.

Definition block_lines (b : pem_lines) : list string :=
  opening_line b :: (base64_lines b ++ [closing_line b])%list.

Definition well_formed_block (b : pem_lines) : Prop :=
  is_begin_line (opening_line b)
  /\ Forall is_plain_line (base64_lines b)
  /\ is_end_line (closing_line b).

(** Output made of certificates, each after some lines that are not part
    of one. *)
Definition output_lines (items : list (list string * pem_lines))
  : list string :=
  List.concat (map (fun item => (fst item ++ block_lines (snd item))%list)
                 items).

(** The test [scan_line] makes to close a block. *)
Definition closes_block (line : string) : bool :=
  negb (str_contains begin_marker line) && str_contains end_marker line.

(** A character of 7-bit text that is no line boundary. *)
Definition text_char (c : ascii) : bool :=
  (N_of_ascii c <? 128)%N && negb (line_break c)
  && negb (N_of_ascii c =? 13)%N.

(** A line of such characters. *)
Fixpoint text_line (s : string) : bool :=
  match s with
  | EmptyString => true
  | String c rest => text_char c && text_line rest
  end.

(** ** A small backend to run the program on

    Certificates over four names, three serial numbers and two validity
    windows; the binary form is a tag byte and one letter per field, the
    text form the same letters between the two PEM marker lines. *)
Module Reference.

Inductive name : Type := CN_server | CN_intermediate | CN_root | CN_other.

Inductive serial : Type := Serial1 | Serial2 | Serial3.

Inductive window : Type := Year2024 | Year2025.

Record cert : Type := {
  c_subject : name;
  c_issuer : name;
  c_serial : serial;
  c_window : window
}.

Definition name_eq_dec (a b : name) : {a = b} + {a <> b}.
Proof. decide equality. Defined.

Definition name_letter (n : name) : byte :=
  match n with
  | CN_server => "s"%byte
  | CN_intermediate => "i"%byte
  | CN_root => "r"%byte
  | CN_other => "o"%byte
  end.

Definition serial_letter (n : serial) : byte :=
  match n with
  | Serial1 => "1"%byte
  | Serial2 => "2"%byte
  | Serial3 => "3"%byte
  end.

Definition window_letter (w : window) : byte :=
  match w with
  | Year2024 => "a"%byte
  | Year2025 => "b"%byte
  end.

Definition letter_name (b : byte) : option name :=
  match b with
  | "s"%byte => Some CN_server
  | "i"%byte => Some CN_intermediate
  | "r"%byte => Some CN_root
  | "o"%byte => Some CN_other
  | _ => None
  end.

Definition letter_serial (b : byte) : option serial :=
  match b with
  | "1"%byte => Some Serial1
  | "2"%byte => Some Serial2
  | "3"%byte => Some Serial3
  | _ => None
  end.

Definition letter_window (b : byte) : option window :=
  match b with
  | "a"%byte => Some Year2024
  | "b"%byte => Some Year2025
  | _ => None
  end.

Definition serial_value (n : serial) : Z :=
  match n with Serial1 => 1 | Serial2 => 2 | Serial3 => 3 end.

(** Seconds since the epoch: 1 January of the year and of the next. *)
Definition window_start (w : window) : Z :=
  match w with Year2024 => 1704067200 | Year2025 => 1735689600 end.

Definition window_end (w : window) : Z :=
  match w with Year2024 => 1735689600 | Year2025 => 1767225600 end.

Definition letters (c : cert) : bytes :=
  [name_letter (c_subject c); name_letter (c_issuer c);
   serial_letter (c_serial c); window_letter (c_window c)].

Definition of_letters (bs : bytes) : option cert :=
  match bs with
  | [s; i; n; w] =>
      match letter_name s, letter_name i, letter_serial n, letter_window w with
      | Some s', Some i', Some n', Some w' =>
          Some {| c_subject := s'; c_issuer := i';
                  c_serial := n'; c_window := w' |}
      | _, _, _, _ => None
      end
  | _ => None
  end.

Definition newline : string := String (ascii_of_nat 10) EmptyString.

Definition pem_begin : bytes :=
  list_byte_of_string ("-----BEGIN CERTIFICATE-----" ++ newline).

Definition pem_end : bytes :=
  list_byte_of_string (newline ++ "-----END CERTIFICATE-----" ++ newline).

Definition bytes_eqb (a b : bytes) : bool :=
  (string_of_list_byte a =? string_of_list_byte b)%string.

Definition to_der (c : cert) : bytes := "0"%byte :: letters c.

Definition to_pem (c : cert) : bytes :=
  (pem_begin ++ letters c ++ pem_end)%list.

Definition from_der (data : bytes) : outcome cert :=
  match data with
  | "0"%byte :: rest =>
      match of_letters rest with
      | Some c => Return c
      | None => Raise (ValueError "error parsing asn1 value: invalid value")
      end
  | _ => Raise (ValueError "error parsing asn1 value: unexpected tag")
  end.

Definition from_pem (data : bytes) : outcome cert :=
  let n := List.length pem_begin in
  if bytes_eqb (firstn n data) pem_begin
     && bytes_eqb (skipn (n + 4) data) pem_end then
    match of_letters (firstn 4 (skipn n data)) with
    | Some c => Return c
    | None => Raise (ValueError "error parsing asn1 value: invalid value")
    end
  else Raise (ValueError "Unable to load PEM file").

#[local] Instance backend : X509Backend := {|
  Name := name;
  Name_eq_dec := name_eq_dec;
  Certificate := cert;
  subject := fun c => Return (c_subject c);
  issuer := fun c => Return (c_issuer c);
  serial_number := fun c => serial_value (c_serial c);
  not_valid_before_utc := fun c => window_start (c_window c);
  not_valid_after_utc := fun c => window_end (c_window c);
  load_der_x509_certificate := from_der;
  load_pem_x509_certificate := from_pem;
  public_bytes := fun e c => match e with PEM => to_pem c | DER => to_der c end
|}.

(** Three certificates of a well-ordered chain, a self-signed server
    certificate, and a stray certificate nobody in the chain issued. *)
Definition leaf : cert :=
  {| c_subject := CN_server; c_issuer := CN_intermediate;
     c_serial := Serial1; c_window := Year2025 |}.

Definition intermediate : cert :=
  {| c_subject := CN_intermediate; c_issuer := CN_root;
     c_serial := Serial2; c_window := Year2024 |}.

Definition root : cert :=
  {| c_subject := CN_root; c_issuer := CN_root;
     c_serial := Serial3; c_window := Year2024 |}.

Definition self_signed_server : cert :=
  {| c_subject := CN_server; c_issuer := CN_server;
     c_serial := Serial1; c_window := Year2025 |}.

Definition stray : cert :=
  {| c_subject := CN_other; c_issuer := CN_root;
     c_serial := Serial2; c_window := Year2025 |}.

(** Bytes that are no certificate. *)
Definition garbage : bytes := ["x"%byte; "y"%byte].

End Reference.

(** ** A backend with certificates whose names cannot be read

    The certificates of [Reference], each with two marks saying whether its
    subject and its issuer decode.  A certificate loads whatever its marks;
    reading a name that does not decode raises. *)
Module Damaged.

Record cert : Type := {
  fields : Reference.cert;
  subject_decodes : bool;
  issuer_decodes : bool
}.

Definition mark_letter (b : bool) : byte :=
  if b then "y"%byte else "n"%byte.

Definition letter_mark (b : byte) : option bool :=
  match b with
  | "y"%byte => Some true
  | "n"%byte => Some false
  | _ => None
  end.

Definition letters (c : cert) : bytes :=
  mark_letter (subject_decodes c) :: mark_letter (issuer_decodes c)
  :: Reference.letters (fields c).

Definition of_letters (bs : bytes) : option cert :=
  match bs with
  | s :: i :: rest =>
      match letter_mark s, letter_mark i, Reference.of_letters rest with
      | Some s', Some i', Some c =>
          Some {| fields := c; subject_decodes := s'; issuer_decodes := i' |}
      | _, _, _ => None
      end
  | _ => None
  end.

Definition to_der (c : cert) : bytes := "0"%byte :: letters c.

Definition to_pem (c : cert) : bytes :=
  (Reference.pem_begin ++ letters c ++ Reference.pem_end)%list.

Definition from_der (data : bytes) : outcome cert :=
  match data with
  | "0"%byte :: rest =>
      match of_letters rest with
      | Some c => Return c
      | None => Raise (ValueError "error parsing asn1 value: invalid value")
      end
  | _ => Raise (ValueError "error parsing asn1 value: unexpected tag")
  end.

Definition from_pem (data : bytes) : outcome cert :=
  let n := List.length Reference.pem_begin in
  if Reference.bytes_eqb (firstn n data) Reference.pem_begin
     && Reference.bytes_eqb (skipn (n + 6) data) Reference.pem_end then
    match of_letters (firstn 6 (skipn n data)) with
    | Some c => Return c
    | None => Raise (ValueError "error parsing asn1 value: invalid value")
    end
  else Raise (ValueError "Unable to load PEM file").

(** What reading a name that does not decode raises. *)
Definition name_error : exn :=
  ValueError "error parsing asn1 value: invalid value in Name".

#[local] Instance backend : X509Backend := {|
  Name := Reference.name;
  Name_eq_dec := Reference.name_eq_dec;
  Certificate := cert;
  subject :=
    fun c => if subject_decodes c
             then Return (Reference.c_subject (fields c))
             else Raise name_error;
  issuer :=
    fun c => if issuer_decodes c
             then Return (Reference.c_issuer (fields c))
             else Raise name_error;
  serial_number :=
    fun c => Reference.serial_value (Reference.c_serial (fields c));
  not_valid_before_utc :=
    fun c => Reference.window_start (Reference.c_window (fields c));
  not_valid_after_utc :=
    fun c => Reference.window_end (Reference.c_window (fields c));
  load_der_x509_certificate := from_der;
  load_pem_x509_certificate := from_pem;
  public_bytes := fun e c => match e with PEM => to_pem c | DER => to_der c end
|}.

(** A certificate of [Reference], both names decoding. *)
Definition sound (c : Reference.cert) : cert :=
  {| fields := c; subject_decodes := true; issuer_decodes := true |}.

(** The same with a subject that does not decode. *)
Definition bad_subject (c : Reference.cert) : cert :=
  {| fields := c; subject_decodes := false; issuer_decodes := true |}.

(** The same with an issuer that does not decode. *)
Definition bad_issuer (c : Reference.cert) : cert :=
  {| fields := c; subject_decodes := true; issuer_decodes := false |}.

End Damaged.

(** ** A small machine to run the tool on

    The backend of [Reference], its PEM loader taking a block with or
    without the line feed after the closing marker (the loop over the
    output of openssl leaves it out); a server that answers with a chain of
    three certificates, one openssl cannot reach, and a path that cannot be
    written. *)
Module Sample.

Definition from_pem (data : bytes) : outcome Reference.cert :=
  match Reference.from_pem data with
  | Return c => Return c
  | Raise e =>
      match Reference.from_pem (data ++ list_byte_of_string line_feed)%list with
      | Return c => Return c
      | Raise _ => Raise e
      end
  end.

#[local] Instance backend : X509Backend := {|
  Name := Reference.name;
  Name_eq_dec := Reference.name_eq_dec;
  Certificate := Reference.cert;
  subject := fun c => Return (Reference.c_subject c);
  issuer := fun c => Return (Reference.c_issuer c);
  serial_number := fun c => Reference.serial_value (Reference.c_serial c);
  not_valid_before_utc :=
    fun c => Reference.window_start (Reference.c_window c);
  not_valid_after_utc := fun c => Reference.window_end (Reference.c_window c);
  load_der_x509_certificate := Reference.from_der;
  load_pem_x509_certificate := from_pem;
  public_bytes :=
    fun e c =>
      match e with
      | PEM => Reference.to_pem c
      | DER => Reference.to_der c
      end
|}.

(** The lines of a certificate as openssl shows it. *)
Definition shown (c : Reference.cert) : pem_lines :=
  {| opening_line := begin_marker;
     base64_lines := [string_of_list_byte (Reference.letters c)];
     closing_line := end_marker |}.

(** What openssl writes for a server that sends a leaf, an intermediate
    and a root certificate. *)
Definition chain_output : list (list string * pem_lines) :=
  [ (["CONNECTED(00000003)"; "---"; "Certificate chain";
      " 0 s:CN = server"], shown Reference.leaf);
    ([" 1 s:CN = intermediate"], shown Reference.intermediate);
    ([" 2 s:CN = root"], shown Reference.root) ].

Definition chain_trailing : list string :=
  ["---"; "Server certificate"; "DONE"].

Definition chain_stdout : bytes :=
  str_encode
    (join_lines (output_lines chain_output ++ chain_trailing)%list
     ++ line_feed).

(** What it writes for a server whose leaf no certificate of the chain
    issued. *)
Definition broken_stdout : bytes :=
  str_encode
    (join_lines
       (output_lines [([], shown Reference.leaf); ([], shown Reference.stray)])
     ++ line_feed).

(** What it writes when the connection is cut in the middle of the first
    certificate. *)
Definition truncated_lines : list string :=
  ["CONNECTED(00000003)"; "---"; begin_marker; "si1"].

Definition truncated_stdout : bytes := str_encode (join_lines truncated_lines).

(** Output whose second block is no certificate. *)
Definition corrupt_block : pem_lines :=
  {| opening_line := begin_marker;
     base64_lines := ["????"];
     closing_line := end_marker |}.

Definition corrupt_stdout : bytes :=
  str_encode
    (join_lines
       (output_lines [([], shown Reference.leaf); ([], corrupt_block);
                      ([], shown Reference.root)])
     ++ line_feed).

#[local] Instance host : Host := {|
  openssl_s_client :=
    fun server port =>
      if (server =? "ldap.example.com")%string then Return chain_stdout
      else if (server =? "ldap.forumsys.com")%string then Return broken_stdout
      else Return [];
  write_file :=
    fun path binary data =>
      if (path =? "/proc/bundle.pem")%string
      then Raise (OtherException
                    "[Errno 13] Permission denied: '/proc/bundle.pem'")
      else Return tt
|}.

Definition arguments_for (server : string) (test : bool) (format : string)
  (output : option string) : arguments :=
  {| args_server := server; args_port := 636; args_test := test;
     args_format := format; args_output := output |}.

End Sample.

(** * Properties *)

(** ** Computations *)

Lemma bind_ret_l {A B : Type} (a : A) (k : A -> M B) : bind (ret a) k = k a.
Proof. unfold bind, ret. destruct (k a); reflexivity. Qed.

Lemma bind_logged {A B : Type} (log : list call) (a : A) (k : A -> M B) (v : B) :
  k a = ret v -> bind (log, Return a) k = (log, Return v).
Proof.
  intros Hk. unfold bind. rewrite Hk. unfold ret.
  rewrite app_nil_r. reflexivity.
Qed.

Lemma bind_raise {A B : Type} (log : list call) (e : exn) (k : A -> M B) :
  bind (log, Raise e) k = (log, Raise e).
Proof. reflexivity. Qed.

(** A handler that returns turns every outcome into a returned value. *)
Lemma try_except_returns {A : Type} (m : M A) (h : exn -> A) :
  exists v, result (try_except m (fun e => ret (h e))) = Return v.
Proof.
  destruct m as [log [a | e]]; simpl.
  - exists a. reflexivity.
  - exists (h e). reflexivity.
Qed.

(** ** Indexing and ranges *)

Lemma len_nonneg {A : Type} (l : list A) : 0 <= len l.
Proof. unfold len. lia. Qed.

Lemma getitem_nth {A : Type} (l : list A) (i : nat) (x : A) :
  nth_error l i = Some x -> getitem l (Z.of_nat i) = Return x.
Proof.
  intros Hx.
  assert (Hlt : (i < List.length l)%nat)
    by (apply nth_error_Some; rewrite Hx; discriminate).
  unfold getitem, len.
  replace (Z.of_nat i <? 0) with false by (symmetry; apply Z.ltb_ge; lia).
  replace (0 <=? Z.of_nat i) with true by (symmetry; apply Z.leb_le; lia).
  replace (Z.of_nat i <? Z.of_nat (List.length l)) with true
    by (symmetry; apply Z.ltb_lt; lia).
  simpl. rewrite Nat2Z.id, Hx. reflexivity.
Qed.

Lemma getitem_succ {A : Type} (l : list A) (i : nat) (x : A) :
  nth_error l (S i) = Some x -> getitem l (Z.of_nat i + 1) = Return x.
Proof.
  intros Hx. replace (Z.of_nat i + 1) with (Z.of_nat (S i)) by lia.
  apply getitem_nth, Hx.
Qed.

(** [l[-1]] is the last element. *)
Lemma getitem_last {A : Type} (front : list A) (x : A) :
  getitem (front ++ [x])%list (-1) = Return x.
Proof.
  unfold getitem, len. rewrite length_app. simpl List.length.
  replace (-1 <? 0) with true by reflexivity.
  replace (-1 + Z.of_nat (List.length front + 1))
    with (Z.of_nat (List.length front)) by lia.
  replace (0 <=? Z.of_nat (List.length front)) with true
    by (symmetry; apply Z.leb_le; lia).
  replace (Z.of_nat (List.length front) <? Z.of_nat (List.length front + 1))
    with true by (symmetry; apply Z.ltb_lt; lia).
  simpl. rewrite Nat2Z.id, nth_error_app2 by lia.
  rewrite Nat.sub_diag. reflexivity.
Qed.

Lemma in_range (n i : Z) : In i (range n) <-> 0 <= i < n.
Proof.
  unfold range. rewrite in_map_iff. split.
  - intros [k [<- Hk]]. apply in_seq in Hk. lia.
  - intros Hi. exists (Z.to_nat i). split; [lia |]. apply in_seq. lia.
Qed.

(** The range up to [n] passes through every [k] below [n]. *)
Lemma range_split (n : Z) (k : nat) :
  Z.of_nat k < n ->
  exists rest, range n = (range (Z.of_nat k) ++ Z.of_nat k :: rest)%list.
Proof.
  intros Hk. unfold range.
  replace (Z.to_nat n) with (k + S (Z.to_nat n - S k))%nat by lia.
  rewrite seq_app, map_app, Nat2Z.id. simpl.
  eexists. reflexivity.
Qed.

(** ** Loops *)

Lemma for_returning_skips {A R : Type} (pre rest : list A)
  (body : A -> M (option R)) :
  (forall x, In x pre -> body x = ret None) ->
  for_returning (pre ++ rest)%list body = for_returning rest body.
Proof.
  induction pre as [| x pre IH]; intros Hpre; simpl.
  - reflexivity.
  - rewrite (Hpre x) by (left; reflexivity).
    rewrite bind_ret_l. apply IH. intros y Hy. apply Hpre. right. exact Hy.
Qed.

(** A loop no iteration of which returns runs to its end. *)
Lemma for_returning_completes {A R : Type} (xs : list A)
  (body : A -> M (option R)) :
  (forall x, In x xs -> body x = ret None) ->
  for_returning xs body = ret None.
Proof.
  intros Hxs. rewrite <- (app_nil_r xs).
  rewrite for_returning_skips by exact Hxs. reflexivity.
Qed.

(** A loop over a range stops at the first index whose iteration returns. *)
Lemma for_returning_stops {R : Type} (n : Z) (k : nat)
  (body : Z -> M (option R)) (v : R) :
  Z.of_nat k < n ->
  (forall j, (j < k)%nat -> body (Z.of_nat j) = ret None) ->
  body (Z.of_nat k) = ret (Some v) ->
  for_returning (range n) body = ret (Some v).
Proof.
  intros Hk Hbefore Hat.
  destruct (range_split n k Hk) as [rest ->].
  rewrite for_returning_skips.
  - simpl. rewrite Hat, bind_ret_l. reflexivity.
  - intros j Hj. apply in_range in Hj.
    replace j with (Z.of_nat (Z.to_nat j)) by lia.
    apply Hbefore. lia.
Qed.

(** A loop over a range raises at the first index whose iteration raises,
    the iterations before it having gone on. *)
Lemma for_returning_raises {R : Type} (n : Z) (k : nat)
  (body : Z -> M (option R)) (e : exn) :
  Z.of_nat k < n ->
  (forall j, (j < k)%nat -> body (Z.of_nat j) = ret None) ->
  body (Z.of_nat k) = raise e ->
  for_returning (range n) body = raise e.
Proof.
  intros Hk Hbefore Hat.
  destruct (range_split n k Hk) as [rest ->].
  rewrite for_returning_skips.
  - simpl. rewrite Hat. reflexivity.
  - intros j Hj. apply in_range in Hj.
    replace j with (Z.of_nat (Z.to_nat j)) by lia.
    apply Hbefore. lia.
Qed.

Lemma bind_raise_l {A B : Type} (e : exn) (k : A -> M B) :
  bind (raise e) k = raise e.
Proof. reflexivity. Qed.

(** The handler of [validate_certificate_chain] around a block that, the
    chain loaded, calls no loader. *)
Lemma try_bind_logged {A : Type} (log : list call) (a : A)
  (k : A -> M (bool * string)) (o : outcome (bool * string)) :
  k a = lift o ->
  try_except (bind (log, Return a) k)
    (fun e =>
       ret (false, "Error validating certificate chain: " ++ str_of_exn e))
  = (log, Return (caught o)).
Proof.
  intros Hk. unfold bind. rewrite Hk. unfold lift.
  destruct o as [v | e]; simpl; rewrite ?app_nil_r; reflexivity.
Qed.

(** ** Loading a chain *)

Section Validation.

Context {X : X509Backend}.

Lemma Name_eqb_true (a b : Name) : Name_eqb a b = true <-> a = b.
Proof.
  unfold Name_eqb. destruct (Name_eq_dec a b) as [E | E]; split; intros H.
  - exact E.
  - reflexivity.
  - discriminate H.
  - contradiction.
Qed.

Lemma bind_lift_return {A B : Type} (a : A) (k : A -> M B) :
  bind (lift (Return a)) k = k a.
Proof. apply bind_ret_l. Qed.

Lemma parses_to_length (cert_ders : list bytes) (certs : list Certificate) :
  parses_to cert_ders certs -> len cert_ders = len certs.
Proof.
  intros H. unfold len. f_equal. exact (Forall2_length H).
Qed.

(** When every element loads, the comprehension returns the certificates,
    having called the loader once per element, in order. *)
Lemma comprehension_load_der (cert_ders : list bytes)
  (certs : list Certificate) :
  parses_to cert_ders certs ->
  comprehension load_der cert_ders = (map LoadDer cert_ders, Return certs).
Proof.
  induction 1 as [| d c ds cs Hd _ IH]; simpl.
  - reflexivity.
  - rewrite IH. unfold load_der. rewrite Hd.
    unfold bind, ret. simpl. rewrite app_nil_r. reflexivity.
Qed.

(** The comprehension stops at the first element that does not load, with
    the loader's exception. *)
Lemma comprehension_load_der_raises (pre post : list bytes) (d : bytes)
  (certs : list Certificate) (e : exn) :
  parses_to pre certs ->
  load_der_x509_certificate d = Raise e ->
  comprehension load_der (pre ++ d :: post)%list
  = (map LoadDer (pre ++ [d])%list, Raise e).
Proof.
  intros Hpre Hd. induction Hpre as [| d0 c ds cs Hd0 _ IH]; simpl.
  - unfold load_der. rewrite Hd. reflexivity.
  - rewrite IH. unfold load_der. rewrite Hd0. reflexivity.
Qed.

(** ** The verdicts of [validate_certificate_chain] *)

Lemma Name_eqb_false (a b : Name) : a <> b -> Name_eqb a b = false.
Proof.
  intros H. destruct (Name_eqb a b) eqn:E; [| reflexivity].
  apply Name_eqb_true in E. contradiction.
Qed.

Lemma Name_eqb_refl (a : Name) : Name_eqb a a = true.
Proof. apply Name_eqb_true. reflexivity. Qed.

Lemma bind_lift_raise {A B : Type} (e : exn) (k : A -> M B) :
  bind (lift (Raise e)) k = raise e.
Proof. reflexivity. Qed.

(** Comparing the names of a pair comes to one of three things. *)
Lemma pair_cases (c c' : Certificate) :
  pair_matches c c' \/ pair_differs c c' \/ exists e, pair_raises c c' e.
Proof.
  unfold pair_matches, pair_differs, pair_raises.
  destruct (issuer c) as [a | e].
  - destruct (subject c') as [b | e].
    + destruct (Name_eq_dec a b) as [<- | Hne].
      * left. exists a. split; reflexivity.
      * right. left. exists a, b. repeat split; assumption.
    + right. right. exists e. right. exists a. split; reflexivity.
  - right. right. exists e. left. reflexivity.
Qed.

Lemma pair_differs_not_matches (c c' : Certificate) :
  pair_differs c c' -> ~ pair_matches c c'.
Proof.
  intros [a [b [Hi [Hs Hne]]]] [n [Hi' Hs']]. congruence.
Qed.

Lemma pair_raises_not_matches (c c' : Certificate) (e : exn) :
  pair_raises c c' e -> ~ pair_matches c c'.
Proof.
  intros [Hi | [a [Hi Hs]]] [n [Hi' Hs']]; congruence.
Qed.

(** [is_self_signed] on a certificate whose names can be read. *)
Lemma is_self_signed_read (c : Certificate) (i s : Name) :
  issuer c = Return i -> subject c = Return s ->
  is_self_signed c = Return (Name_eqb i s).
Proof. intros Hi Hs. unfold is_self_signed. rewrite Hi, Hs. reflexivity. Qed.

(** Evaluates the two lookups [certs[i]] and [certs[i + 1]] of one
    iteration of the loop. *)
Ltac loop_step Hc Hc' :=
  cbv beta;
  rewrite (getitem_nth _ _ _ Hc), bind_lift_return;
  rewrite (getitem_succ _ _ _ Hc'), bind_lift_return.

(** The iterations before position [i], where every pair matches, go on. *)
Ltac pass_earlier certs Hbefore :=
  let j := fresh "j" in
  let Hj := fresh "Hj" in
  let d := fresh "d" in
  let d' := fresh "d'" in
  let Hd := fresh "Hd" in
  let Hd' := fresh "Hd'" in
  let n := fresh "n" in
  let Hi := fresh "Hi" in
  let Hs := fresh "Hs" in
  intros j Hj;
  destruct (nth_error certs j) as [d |] eqn:Hd;
    [| apply nth_error_None in Hd; lia];
  destruct (nth_error certs (S j)) as [d' |] eqn:Hd';
    [| apply nth_error_None in Hd'; lia];
  loop_step Hd Hd';
  destruct (Hbefore j d d' Hj Hd Hd') as [n [Hi Hs]];
  rewrite Hi, bind_lift_return, Hs, bind_lift_return, Name_eqb_refl;
  reflexivity.

(** From the call to the point where the chain has loaded and the loop is
    to run, for a chain of two certificates or more. *)
Ltac reach_loop Hp Hlen :=
  unfold validate_certificate_chain;
  rewrite (parses_to_length _ _ Hp);
  replace (len _ =? 0) with false
    by (symmetry; apply Z.eqb_neq; unfold len; lia);
  rewrite (comprehension_load_der _ _ Hp);
  erewrite try_bind_logged; [reflexivity |];
  cbv beta;
  replace (len _ =? 1) with false
    by (symmetry; apply Z.eqb_neq; unfold len; lia);
  rewrite bind_ret_l.

(** The chain loads, the pairs before position [i] match, and reading a
    name of the pair at [i] raises: the handler gives the verdict. *)
Lemma validate_pair_raises (cert_ders : list bytes)
  (certs : list Certificate) (i : nat) (c c' : Certificate) (e : exn) :
  parses_to cert_ders certs ->
  nth_error certs i = Some c -> nth_error certs (S i) = Some c' ->
  matches_before certs i ->
  pair_raises c c' e ->
  validate_certificate_chain cert_ders
  = (map LoadDer cert_ders, Return (caught (Raise e))).
Proof.
  intros Hp Hc Hc' Hbefore Hraises.
  assert (Hlen : (S i < List.length certs)%nat)
    by (apply nth_error_Some; rewrite Hc'; discriminate).
  reach_loop Hp Hlen.
  erewrite (for_returning_raises _ i _ e).
  - reflexivity.
  - unfold len. lia.
  - pass_earlier certs Hbefore.
  - loop_step Hc Hc'.
    destruct Hraises as [Hi | [a [Hi Hs]]].
    + rewrite Hi. reflexivity.
    + rewrite Hi, bind_lift_return, Hs. reflexivity.
Qed.

(** The chain loads, the pairs before position [i] match, and the names of
    the pair at [i] differ: what [is_self_signed(cert)] comes to decides. *)
Lemma validate_pair_differs (cert_ders : list bytes)
  (certs : list Certificate) (i : nat) (c c' : Certificate) :
  parses_to cert_ders certs ->
  nth_error certs i = Some c -> nth_error certs (S i) = Some c' ->
  matches_before certs i ->
  pair_differs c c' ->
  validate_certificate_chain cert_ders
  = (map LoadDer cert_ders,
     Return
       (caught
          match is_self_signed c with
          | Return true =>
              Return
                (true, "Chain contains self-signed certificate at position "
                       ++ str_of_int (Z.of_nat i))
          | Return false =>
              Return
                (false, "Certificate chain broken at position "
                        ++ str_of_int (Z.of_nat i)
                        ++ ": issuer does not match next certificate's subject")
          | Raise e => Raise e
          end)).
Proof.
  intros Hp Hc Hc' Hbefore [a [b [Hi [Hs Hne]]]].
  assert (Hlen : (S i < List.length certs)%nat)
    by (apply nth_error_Some; rewrite Hc'; discriminate).
  reach_loop Hp Hlen.
  destruct (is_self_signed c) as [[|] | e] eqn:Hss.
  - erewrite (for_returning_stops _ i).
    + rewrite bind_ret_l. reflexivity.
    + unfold len. lia.
    + pass_earlier certs Hbefore.
    + loop_step Hc Hc'.
      rewrite Hi, bind_lift_return, Hs, bind_lift_return.
      rewrite (Name_eqb_false _ _ Hne). cbn [negb].
      rewrite Hss, bind_lift_return. reflexivity.
  - erewrite (for_returning_stops _ i).
    + rewrite bind_ret_l. reflexivity.
    + unfold len. lia.
    + pass_earlier certs Hbefore.
    + loop_step Hc Hc'.
      rewrite Hi, bind_lift_return, Hs, bind_lift_return.
      rewrite (Name_eqb_false _ _ Hne). cbn [negb].
      rewrite Hss, bind_lift_return. reflexivity.
  - erewrite (for_returning_raises _ i _ e).
    + reflexivity.
    + unfold len. lia.
    + pass_earlier certs Hbefore.
    + loop_step Hc Hc'.
      rewrite Hi, bind_lift_return, Hs, bind_lift_return.
      rewrite (Name_eqb_false _ _ Hne). cbn [negb].
      rewrite Hss. reflexivity.
Qed.

(** The chain loads and every adjacent pair matches: the loop runs to its
    end and what [is_self_signed] comes to on the last certificate decides
    (on the only certificate, for a chain of one). *)
Lemma validate_all_match (cert_ders : list bytes)
  (front : list Certificate) (last_cert : Certificate) :
  parses_to cert_ders (front ++ [last_cert])%list ->
  all_match (front ++ [last_cert])%list ->
  validate_certificate_chain cert_ders
  = (map LoadDer cert_ders,
     Return
       (caught
          match is_self_signed last_cert with
          | Raise e => Raise e
          | Return self_signed =>
              Return
                (if (len (front ++ [last_cert])%list =? 1) && self_signed
                 then (true, "Valid self-signed certificate")
                 else if self_signed then
                   (true,
                    "Certificate chain is valid and ends with self-signed root CA")
                 else (true, "Certificate chain is valid and properly ordered"))
          end)).
Proof.
  intros Hp Hall.
  set (certs := (front ++ [last_cert])%list) in *.
  assert (Hlen : List.length certs = S (List.length front))
    by (unfold certs; rewrite length_app; simpl; lia).
  unfold validate_certificate_chain.
  rewrite (parses_to_length _ _ Hp).
  replace (len certs =? 0) with false
    by (symmetry; apply Z.eqb_neq; unfold len; lia).
  rewrite (comprehension_load_der _ _ Hp).
  erewrite try_bind_logged; [reflexivity |].
  cbv beta.
  assert (Hsingle :
    (if len certs =? 1
     then c0 <- lift (getitem certs 0) ;; lift (is_self_signed c0)
     else ret false)
    = if len certs =? 1 then lift (is_self_signed last_cert) else ret false).
  { destruct (len certs =? 1) eqn:E; [| reflexivity].
    apply Z.eqb_eq in E. unfold len in E.
    assert (Hfront : List.length front = 0%nat) by lia.
    destruct front as [| c front]; [| discriminate Hfront].
    unfold certs.
    change (getitem ([] ++ [last_cert])%list 0) with (Return last_cert).
    rewrite bind_lift_return. reflexivity. }
  rewrite Hsingle.
  assert (Hloop :
    forall j, In j (range (len certs - 1)) ->
      (cert <- lift (getitem certs j) ;;
       issuer' <- lift (getitem certs (j + 1)) ;;
       cert_issuer_dn <- lift (issuer cert) ;;
       next_cert_subject_dn <- lift (subject issuer') ;;
       if negb (Name_eqb cert_issuer_dn next_cert_subject_dn) then
         self_signed <- lift (is_self_signed cert) ;;
         if self_signed then
           ret (Some (true,
                  "Chain contains self-signed certificate at position "
                  ++ str_of_int j))
         else
           ret (Some (false,
                  "Certificate chain broken at position " ++ str_of_int j
                  ++ ": issuer does not match next certificate's subject"))
       else ret None)
      = ret (@None (bool * string))).
  { intros j Hj. apply in_range in Hj. unfold len in Hj.
    replace j with (Z.of_nat (Z.to_nat j)) by lia.
    destruct (nth_error certs (Z.to_nat j)) as [d |] eqn:Hd;
      [| apply nth_error_None in Hd; lia].
    destruct (nth_error certs (S (Z.to_nat j))) as [d' |] eqn:Hd';
      [| apply nth_error_None in Hd'; lia].
    loop_step Hd Hd'.
    destruct (Hall _ d d' Hd Hd') as [n [Hi Hs]].
    rewrite Hi, bind_lift_return, Hs, bind_lift_return, Name_eqb_refl.
    reflexivity. }
  destruct (is_self_signed last_cert) as [self_signed | e] eqn:Hss.
  - destruct (len certs =? 1) eqn:E.
    + rewrite bind_lift_return. destruct self_signed; [reflexivity |].
      rewrite (for_returning_completes _ _ Hloop), bind_ret_l.
      unfold certs. rewrite getitem_last, bind_lift_return.
      rewrite Hss, bind_lift_return. reflexivity.
    + rewrite bind_ret_l.
      rewrite (for_returning_completes _ _ Hloop), bind_ret_l.
      unfold certs. rewrite getitem_last, bind_lift_return.
      rewrite Hss, bind_lift_return. destruct self_signed; reflexivity.
  - destruct (len certs =? 1) eqn:E.
    + reflexivity.
    + rewrite bind_ret_l.
      rewrite (for_returning_completes _ _ Hloop), bind_ret_l.
      unfold certs. rewrite getitem_last, bind_lift_return.
      rewrite Hss. reflexivity.
Qed.

(** An element does not load: the handler turns the loader's exception into
    the verdict. *)
Lemma validate_load_raises (pre post : list bytes) (d : bytes)
  (certs : list Certificate) (e : exn) :
  parses_to pre certs ->
  load_der_x509_certificate d = Raise e ->
  validate_certificate_chain (pre ++ d :: post)%list
  = (map LoadDer (pre ++ [d])%list,
     Return (false, "Error validating certificate chain: " ++ str_of_exn e)).
Proof.
  intros Hpre Hd. unfold validate_certificate_chain.
  replace (len (pre ++ d :: post)%list =? 0) with false
    by (symmetry; apply Z.eqb_neq; unfold len; rewrite length_app; simpl; lia).
  rewrite (comprehension_load_der_raises _ _ _ _ _ Hpre Hd).
  rewrite bind_raise. simpl. rewrite app_nil_r. reflexivity.
Qed.

(** A chain either matches throughout or has a first pair that does not
    match: its names differ, or reading one of them raises. *)
Lemma first_mismatch_or_all_match (certs : list Certificate) :
  all_match certs
  \/ exists (i : nat) (c c' : Certificate),
       nth_error certs i = Some c /\ nth_error certs (S i) = Some c'
       /\ matches_before certs i
       /\ (pair_differs c c' \/ exists e, pair_raises c c' e).
Proof.
  induction certs as [| a rest IH].
  - left. intros j c c' Hc. destruct j; discriminate Hc.
  - destruct rest as [| b rest'].
    + left. intros j c c' _ Hc'. destruct j; discriminate Hc'.
    + destruct (pair_cases a b) as [Hm | Hnot].
      * destruct IH as [Hall | [i [c [c' [Hc [Hc' [Hbefore Hpair]]]]]]].
        -- left. intros j c c' Hc Hc'. destruct j as [| j].
           ++ simpl in Hc, Hc'. injection Hc as <-. injection Hc' as <-.
              exact Hm.
           ++ exact (Hall j c c' Hc Hc').
        -- right. exists (S i), c, c'. repeat split; try assumption.
           intros j d d' Hj Hd Hd'. destruct j as [| j].
           ++ simpl in Hd, Hd'. injection Hd as <-. injection Hd' as <-.
              exact Hm.
           ++ apply (Hbefore j d d'); [lia | exact Hd | exact Hd'].
      * right. exists 0%nat, a, b. repeat split; try assumption.
        intros j d d' Hj. lia.
Qed.

(** ** The claims on [validate_certificate_chain] *)

(** C1 (as amended): in a chain that loads and that
    [validate_certificate_chain] accepts, every adjacent pair
    [(cert[i], cert[i+1])] in which [cert[i]] is not self-signed and before
    which every adjacent pair matches has
    [cert[i].issuer == cert[i+1].subject].  Pairs after a self-signed
    certificate that stopped the loop are not examined. *)
Theorem valid_chain_matches_up_to_first_mismatch
  (cert_ders : list bytes) (certs : list Certificate) (msg : string)
  (i : nat) (c c' : Certificate) :
  parses_to cert_ders certs ->
  result (validate_certificate_chain cert_ders) = Return (true, msg) ->
  matches_before certs i ->
  nth_error certs i = Some c -> nth_error certs (S i) = Some c' ->
  is_self_signed c <> Return true ->
  pair_matches c c'.
Proof.
  intros Hp Hvalid Hbefore Hc Hc' Hss.
  destruct (pair_cases c c') as [Hm | [Hdiff | [e Hraises]]]; [exact Hm | |].
  - rewrite (validate_pair_differs _ _ _ _ _ Hp Hc Hc' Hbefore Hdiff)
      in Hvalid.
    unfold result, snd in Hvalid.
    destruct (is_self_signed c) as [[|] | e];
      [contradiction Hss; reflexivity | discriminate Hvalid
      | discriminate Hvalid].
  - rewrite (validate_pair_raises _ _ _ _ _ _ Hp Hc Hc' Hbefore Hraises)
      in Hvalid.
    discriminate Hvalid.
Qed.

(** C2: [validate_certificate_chain] returns on every input, and what is
    raised inside its [try] block comes back as [(False, "Error validating
    certificate chain: " + str(e))]: the exception [e] of the loader at the
    first element that does not load, and, in a chain that loads, the
    exception [e] of reading a name, be it while the pair at [i] is
    compared (the pairs before it matching), in [is_self_signed(cert)]
    after that pair was found to differ, or in [is_self_signed(certs[-1])]
    after every pair matched (which for a chain of one is the test of the
    only certificate). *)
Theorem validate_never_raises (cert_ders : list bytes) :
  (exists verdict,
     result (validate_certificate_chain cert_ders) = Return verdict)
  /\ (forall (pre post : list bytes) (d : bytes)
             (certs : list Certificate) (e : exn),
        cert_ders = (pre ++ d :: post)%list ->
        parses_to pre certs ->
        load_der_x509_certificate d = Raise e ->
        result (validate_certificate_chain cert_ders)
        = Return (false,
                  "Error validating certificate chain: " ++ str_of_exn e))
  /\ (forall certs : list Certificate,
        parses_to cert_ders certs ->
        (forall (i : nat) (c c' : Certificate) (e : exn),
           nth_error certs i = Some c -> nth_error certs (S i) = Some c' ->
           matches_before certs i ->
           pair_raises c c' e
           \/ (pair_differs c c' /\ is_self_signed c = Raise e) ->
           result (validate_certificate_chain cert_ders)
           = Return (false,
                     "Error validating certificate chain: " ++ str_of_exn e))
        /\ (forall (front : list Certificate) (last_cert : Certificate)
                   (e : exn),
              certs = (front ++ [last_cert])%list ->
              all_match certs ->
              is_self_signed last_cert = Raise e ->
              result (validate_certificate_chain cert_ders)
              = Return (false,
                        "Error validating certificate chain: "
                        ++ str_of_exn e))).
Proof.
  split; [| split].
  - unfold validate_certificate_chain.
    destruct (len cert_ders =? 0).
    + eexists. reflexivity.
    + apply try_except_returns.
  - intros pre post d certs e -> Hpre Hd.
    rewrite (validate_load_raises _ _ _ _ _ Hpre Hd). reflexivity.
  - intros certs Hp. split.
    + intros i c c' e Hc Hc' Hbefore [Hraises | [Hdiff Hss]].
      * rewrite (validate_pair_raises _ _ _ _ _ _ Hp Hc Hc' Hbefore Hraises).
        reflexivity.
      * rewrite (validate_pair_differs _ _ _ _ _ Hp Hc Hc' Hbefore Hdiff).
        rewrite Hss. reflexivity.
    + intros front last_cert e -> Hall Hss.
      rewrite (validate_all_match _ _ _ Hp Hall), Hss. reflexivity.
Qed.

(** C3 (as amended): when the chain loads and position [i] is the first at
    which [cert[i].issuer != cert[i+1].subject], validation stops at [i]:
    the verdict is [(True, "Chain contains self-signed certificate at
    position {i}")] when [cert[i]] is self-signed, [(False, "Certificate
    chain broken at position {i}: issuer does not match next certificate's
    subject")] when the subject of [cert[i]] can be read and is not its
    issuer, and [(False, "Error validating certificate chain: " + str(e))]
    when reading the subject of [cert[i]] raises [e]. *)
Theorem validate_stops_at_first_mismatch
  (cert_ders : list bytes) (certs : list Certificate)
  (i : nat) (c c' : Certificate) :
  parses_to cert_ders certs ->
  nth_error certs i = Some c -> nth_error certs (S i) = Some c' ->
  pair_differs c c' ->
  matches_before certs i ->
  result (validate_certificate_chain cert_ders)
  = Return
      match is_self_signed c with
      | Return true =>
          (true, "Chain contains self-signed certificate at position "
                 ++ str_of_int (Z.of_nat i))
      | Return false =>
          (false, "Certificate chain broken at position "
                  ++ str_of_int (Z.of_nat i)
                  ++ ": issuer does not match next certificate's subject")
      | Raise e =>
          (false, "Error validating certificate chain: " ++ str_of_exn e)
      end.
Proof.
  intros Hp Hc Hc' Hdiff Hbefore.
  rewrite (validate_pair_differs _ _ _ _ _ Hp Hc Hc' Hbefore Hdiff).
  destruct (is_self_signed c) as [[|] | e]; reflexivity.
Qed.

(** C4 (as amended): for a chain of at least two certificates that loads
    and in which every adjacent pair matches, the verdict is [(True,
    "Certificate chain is valid and ends with self-signed root CA")] when
    the last certificate is self-signed, [(True, "Certificate chain is
    valid and properly ordered")] when its issuer can be read and is not
    its subject, and [(False, "Error validating certificate chain: " +
    str(e))] when reading its issuer raises [e]. *)
Theorem validate_matching_chain
  (cert_ders : list bytes) (front : list Certificate)
  (last_cert : Certificate) :
  parses_to cert_ders (front ++ [last_cert])%list ->
  (2 <= List.length (front ++ [last_cert])%list)%nat ->
  all_match (front ++ [last_cert])%list ->
  result (validate_certificate_chain cert_ders)
  = Return
      match is_self_signed last_cert with
      | Return true =>
          (true, "Certificate chain is valid and ends with self-signed root CA")
      | Return false =>
          (true, "Certificate chain is valid and properly ordered")
      | Raise e =>
          (false, "Error validating certificate chain: " ++ str_of_exn e)
      end.
Proof.
  intros Hp Hlen Hall.
  rewrite (validate_all_match _ _ _ Hp Hall).
  replace (len (front ++ [last_cert])%list =? 1) with false
    by (symmetry; apply Z.eqb_neq; unfold len; lia).
  destruct (is_self_signed last_cert) as [[|] | e]; reflexivity.
Qed.

(** C5 (as amended): for a chain of exactly one certificate, which loads,
    the verdict is [(True, "Valid self-signed certificate")] when its
    subject and issuer can be read and are equal, [(True, "Certificate
    chain is valid and properly ordered")] when they can be read and
    differ, and [(False, "Error validating certificate chain: " + str(e))]
    when reading one of them raises [e]. *)
Theorem validate_single_certificate (d : bytes) (c : Certificate) :
  load_der_x509_certificate d = Return c ->
  (forall n : Name,
     subject c = Return n -> issuer c = Return n ->
     result (validate_certificate_chain [d])
     = Return (true, "Valid self-signed certificate"))
  /\ (forall s i : Name,
        subject c = Return s -> issuer c = Return i -> s <> i ->
        result (validate_certificate_chain [d])
        = Return (true, "Certificate chain is valid and properly ordered"))
  /\ (forall e : exn,
        is_self_signed c = Raise e ->
        result (validate_certificate_chain [d])
        = Return (false,
                  "Error validating certificate chain: " ++ str_of_exn e)).
Proof.
  intros Hd.
  assert (Hp : parses_to [d] ([] ++ [c])%list)
    by (constructor; [exact Hd | constructor]).
  assert (Hall : all_match ([] ++ [c])%list)
    by (intros j a b _ Hb; destruct j; discriminate Hb).
  rewrite (validate_all_match _ _ _ Hp Hall).
  change (len ([] ++ [c])%list =? 1) with true.
  split; [| split].
  - intros n Hs Hi. rewrite (is_self_signed_read _ _ _ Hi Hs), Name_eqb_refl.
    reflexivity.
  - intros s i Hs Hi Hne. rewrite (is_self_signed_read _ _ _ Hi Hs).
    rewrite Name_eqb_false by congruence. reflexivity.
  - intros e Hss. rewrite Hss. reflexivity.
Qed.

(** C6: on the empty chain [validate_certificate_chain] returns [(False, "No
    certificates found in chain")] and has called the loader on nothing. *)
Theorem validate_empty_chain :
  validate_certificate_chain []
  = ([], Return (false, "No certificates found in chain")).
Proof. reflexivity. Qed.

(** C10: a non-empty chain that loads and in which every certificate is
    self-signed is accepted, whether or not adjacent issuers and subjects
    match. *)
Theorem validate_all_self_signed
  (cert_ders : list bytes) (certs : list Certificate) :
  certs <> [] ->
  parses_to cert_ders certs ->
  Forall (fun c => exists n, subject c = Return n /\ issuer c = Return n)
    certs ->
  exists msg,
    result (validate_certificate_chain cert_ders) = Return (true, msg).
Proof.
  intros Hne Hp Hself.
  assert (Hss : forall c, In c certs -> is_self_signed c = Return true).
  { intros c Hin.
    destruct (proj1 (Forall_forall _ _) Hself c Hin) as [n [Hs Hi]].
    rewrite (is_self_signed_read _ _ _ Hi Hs), Name_eqb_refl. reflexivity. }
  destruct (first_mismatch_or_all_match certs)
    as [Hall | [i [c [c' [Hc [Hc' [Hbefore [Hdiff | [e Hraises]]]]]]]]].
  - destruct (exists_last Hne) as [front [last_cert ->]].
    rewrite (validate_all_match _ _ _ Hp Hall).
    rewrite (Hss last_cert) by (apply in_or_app; right; left; reflexivity).
    unfold result, snd, caught.
    destruct (_ && _); eexists; reflexivity.
  - rewrite (validate_pair_differs _ _ _ _ _ Hp Hc Hc' Hbefore Hdiff).
    rewrite (Hss c (nth_error_In _ _ Hc)). eexists. reflexivity.
  - exfalso.
    destruct (proj1 (Forall_forall _ _) Hself c (nth_error_In _ _ Hc))
      as [n [_ Hi]].
    destruct (proj1 (Forall_forall _ _) Hself c' (nth_error_In _ _ Hc'))
      as [n' [Hs' _]].
    destruct Hraises as [Hr | [a [_ Hr]]]; congruence.
Qed.

End Validation.


(** ** Formatting and the bundle *)

Lemma append_assoc (a b c : string) : ((a ++ b) ++ c = a ++ (b ++ c))%string.
Proof. induction a as [| x a IH]; simpl; [| rewrite IH]; reflexivity. Qed.

Lemma append_empty_r (a : string) : (a ++ EmptyString = a)%string.
Proof. induction a as [| x a IH]; simpl; [| rewrite IH]; reflexivity. Qed.

Section Formatting.

Context {X : X509Backend}.

Lemma format_certificate_pem (cert_data : bytes) (cert : Certificate) :
  load_der_x509_certificate cert_data = Return cert ->
  utf8_valid (public_bytes PEM cert) = true ->
  format_certificate cert_data "pem"
  = ([LoadDer cert_data], Return (PyStr (pem_block cert))).
Proof.
  intros Hload Htext. unfold format_certificate, load_der, bytes_decode.
  rewrite Hload. simpl. rewrite Htext. reflexivity.
Qed.

Lemma format_certificate_der (cert_data : bytes) (cert : Certificate) :
  load_der_x509_certificate cert_data = Return cert ->
  format_certificate cert_data "der"
  = ([LoadDer cert_data], Return (PyBytes (public_bytes DER cert))).
Proof.
  intros Hload. unfold format_certificate, load_der.
  rewrite Hload. reflexivity.
Qed.

(** Bytes that do not load make [format_certificate] raise the loader's
    exception, whatever the format asked for. *)
Lemma format_certificate_malformed (cert_data : bytes) (format : string)
  (e : exn) :
  load_der_x509_certificate cert_data = Raise e ->
  format_certificate cert_data format = ([LoadDer cert_data], Raise e).
Proof.
  intros Hload. unfold format_certificate, load_der.
  rewrite Hload. reflexivity.
Qed.

(** C7 (as amended): on bytes that load (the PEM form of the certificate
    being text), [format_certificate] raises [ValueError("Unsupported format:
    {format}")] exactly when [format] is neither ['pem'] nor ['der'], and
    returns for ['pem'] and for ['der']. *)
Theorem format_certificate_on_well_formed
  (cert_data : bytes) (format : string) (cert : Certificate) :
  load_der_x509_certificate cert_data = Return cert ->
  utf8_valid (public_bytes PEM cert) = true ->
  (result (format_certificate cert_data format)
   = Raise (ValueError ("Unsupported format: " ++ format))
   <-> format <> "pem" /\ format <> "der")
  /\ (format = "pem" ->
      result (format_certificate cert_data format)
      = Return (PyStr (pem_block cert)))
  /\ (format = "der" ->
      result (format_certificate cert_data format)
      = Return (PyBytes (public_bytes DER cert))).
Proof.
  intros Hload Htext. split; [split | split].
  - intros E. split; intros ->.
    + rewrite (format_certificate_pem _ _ Hload Htext) in E. discriminate E.
    + rewrite (format_certificate_der _ _ Hload) in E. discriminate E.
  - intros [Hpem Hder]. unfold format_certificate, load_der.
    rewrite Hload. simpl.
    destruct (String.eqb_spec format "pem") as [E | _]; [contradiction |].
    destruct (String.eqb_spec format "der") as [E | _]; [contradiction |].
    reflexivity.
  - intros ->. rewrite (format_certificate_pem _ _ Hload Htext). reflexivity.
  - intros ->. rewrite (format_certificate_der _ _ Hload). reflexivity.
Qed.

(** C8: with codecs that read back what they write, taking bytes that load
    through [format_certificate(_, 'der')], the result through
    [format_certificate(_, 'pem')], and loading that PEM text gives a
    certificate with the subject, issuer, serial number and validity window
    of the original. *)
Theorem format_der_pem_round_trip (L : LawfulBackend X)
  (cert_data : bytes) (cert : Certificate) :
  load_der_x509_certificate cert_data = Return cert ->
  exists (der : bytes) (pem : string) (cert' : Certificate),
    result (format_certificate cert_data "der") = Return (PyBytes der)
    /\ result (format_certificate der "pem") = Return (PyStr pem)
    /\ result (load_pem (str_encode pem)) = Return cert'
    /\ same_fields cert cert'.
Proof.
  intros Hload.
  destruct (der_reads_back cert) as [c1 [Hc1 Hsame1]].
  destruct (pem_reads_back c1) as [c2 [Hc2 Hsame2]].
  exists (public_bytes DER cert), (pem_block c1), c2.
  split; [| split; [| split]].
  - rewrite (format_certificate_der _ _ Hload). reflexivity.
  - rewrite (format_certificate_pem _ _ Hc1 (pem_is_text c1)). reflexivity.
  - unfold load_pem, str_encode, pem_block, result, snd.
    rewrite list_byte_of_string_of_list_byte. exact Hc2.
  - unfold same_fields in *.
    destruct Hsame1 as [S1 [I1 [N1 [B1 A1]]]].
    destruct Hsame2 as [S2 [I2 [N2 [B2 A2]]]].
    repeat split; congruence.
Qed.

(** In PEM mode the loop appends the PEM block of each chain certificate
    to the bundle. *)
Lemma bundle_loop_pem (chain_ders : list bytes)
  (chain_certs : list Certificate) (text : string) :
  parses_to chain_ders chain_certs ->
  Forall (fun c => utf8_valid (public_bytes PEM c) = true) chain_certs ->
  for_updating chain_ders
    (fun bundle cert =>
       if ("pem" =? "pem")%string then
         block <- format_certificate cert "pem" ;;
         lift (py_add bundle block)
       else
         lift (py_add bundle (PyBytes cert)))
    (PyStr text)
  = (map LoadDer chain_ders,
     Return (PyStr (text ++ str_concat (map pem_block chain_certs)))).
Proof.
  intros Hp Htext.
  match goal with |- for_updating _ ?b _ = _ => set (body := b) end.
  revert text Htext.
  induction Hp as [| d c ds cs Hd _ IH]; intros text Htext.
  - simpl. rewrite append_empty_r. reflexivity.
  - inversion Htext as [| c0 cs0 Hc Hcs]; subst.
    assert (Hbody : body (PyStr text) d
                    = ([LoadDer d], Return (PyStr (text ++ pem_block c)))).
    { unfold body. change ("pem" =? "pem")%string with true. cbv iota.
      rewrite (format_certificate_pem _ _ Hd Hc). reflexivity. }
    cbn [for_updating]. rewrite Hbody. unfold bind.
    rewrite (IH _ Hcs). simpl map. simpl str_concat.
    rewrite append_assoc. reflexivity.
Qed.

(** In DER mode the loop appends the bytes of each chain certificate as they
    are, and loads none of them. *)
Lemma bundle_loop_der (chain_ders : list bytes) (data : bytes) :
  for_updating chain_ders
    (fun bundle cert =>
       if ("der" =? "pem")%string then
         block <- format_certificate cert "der" ;;
         lift (py_add bundle block)
       else
         lift (py_add bundle (PyBytes cert)))
    (PyBytes data)
  = ([], Return (PyBytes (data ++ List.concat chain_ders)%list)).
Proof.
  match goal with |- for_updating _ ?b _ = _ => set (body := b) end.
  revert data. induction chain_ders as [| d ds IH]; intros data.
  - simpl. rewrite app_nil_r. reflexivity.
  - assert (Hbody : body (PyBytes data) d = ret (PyBytes (data ++ d)%list))
      by reflexivity.
    cbn [for_updating]. rewrite Hbody, bind_ret_l, IH.
    simpl List.concat. rewrite <- app_assoc. reflexivity.
Qed.

(** C9: from a non-empty list of certificates that load (their PEM forms
    being text), the bundle [main] builds is, in PEM mode, the PEM block of
    the leaf followed by the PEM block of each chain certificate, in order
    and with nothing in between; in DER mode, the DER bytes of the leaf
    followed by the bytes of each chain certificate as retrieved, in order
    and with nothing in between. *)
Theorem main_bundle_layout
  (leaf_der : bytes) (chain_ders : list bytes)
  (leaf_cert : Certificate) (chain_certs : list Certificate) :
  parses_to (leaf_der :: chain_ders) (leaf_cert :: chain_certs) ->
  Forall (fun c => utf8_valid (public_bytes PEM c) = true)
    (leaf_cert :: chain_certs) ->
  exists certificates : certificates_dict,
    returned_certificates (leaf_der :: chain_ders) = Return certificates
    /\ result (main_bundle certificates "pem")
       = Return (PyStr (pem_block leaf_cert
                        ++ str_concat (map pem_block chain_certs)))
    /\ result (main_bundle certificates "der")
       = Return (PyBytes (public_bytes DER leaf_cert
                          ++ List.concat chain_ders)%list).
Proof.
  intros Hp Htext.
  inversion Hp as [| d c ds cs Hleaf Hchain]; subst.
  inversion Htext as [| c0 cs0 Hleaf_text Hchain_text]; subst.
  exists {| peer_certificate := leaf_der;
            peer_certificate_chain := chain_ders |}.
  split; [| split].
  - unfold returned_certificates. simpl getitem.
    destruct chain_ders as [| d ds]; [reflexivity |].
    replace (len (leaf_der :: d :: ds) >? 1) with true; [reflexivity |].
    symmetry. apply Z.gtb_lt. unfold len. simpl List.length. lia.
  - unfold main_bundle. simpl peer_certificate. simpl peer_certificate_chain.
    rewrite (format_certificate_pem _ _ Hleaf Hleaf_text).
    unfold bind. rewrite (bundle_loop_pem _ _ _ Hchain Hchain_text).
    reflexivity.
  - unfold main_bundle. simpl peer_certificate. simpl peer_certificate_chain.
    rewrite (format_certificate_der _ _ Hleaf).
    unfold bind. rewrite bundle_loop_der. reflexivity.
Qed.

End Formatting.

(** ** The small backend: its codecs are lawful, and concrete runs *)

Lemma reference_backend_lawful : LawfulBackend Reference.backend.
Proof.
  split.
  - intros [[] [] [] []]; eexists; (split; [reflexivity | repeat split]).
  - intros [[] [] [] []]; eexists; (split; [reflexivity | repeat split]).
  - intros [[] [] [] []]; reflexivity.
Qed.

(** C1 does not hold of every accepted chain: the self-signed server
    certificate at position 0 does not match the stray certificate after it,
    so the chain is accepted there, and the pair at positions 1 and 2 is
    never looked at; its first certificate is not self-signed and its issuer
    is not the subject of the next. *)
Lemma accepted_chain_with_unmatched_pair :
  let certs := [Reference.self_signed_server; Reference.stray;
                Reference.self_signed_server] in
  let cert_ders := map Reference.to_der certs in
  parses_to (X := Reference.backend) cert_ders certs
  /\ result (validate_certificate_chain (X := Reference.backend) cert_ders)
     = Return (true, "Chain contains self-signed certificate at position 0")
  /\ nth_error certs 1 = Some Reference.stray
  /\ nth_error certs 2 = Some Reference.self_signed_server
  /\ is_self_signed (X := Reference.backend) Reference.stray = Return false
  /\ issuer (X509Backend := Reference.backend) Reference.stray
     = Return Reference.CN_root
  /\ subject (X509Backend := Reference.backend) Reference.self_signed_server
     = Return Reference.CN_server
  /\ Reference.CN_root <> Reference.CN_server.
Proof.
  cbv zeta. repeat split; try reflexivity.
  - repeat constructor.
  - discriminate.
Qed.

Lemma valid_chain_matches_witness :
  pair_matches (X := Reference.backend)
    Reference.intermediate Reference.root.
Proof.
  apply (valid_chain_matches_up_to_first_mismatch (X := Reference.backend)
           (map Reference.to_der
              [Reference.leaf; Reference.intermediate; Reference.root])
           [Reference.leaf; Reference.intermediate; Reference.root]
           "Certificate chain is valid and ends with self-signed root CA"
           1 Reference.intermediate Reference.root).
  - repeat constructor.
  - reflexivity.
  - intros j c c' Hj Hc Hc'.
    destruct j as [| j]; [| exfalso; lia].
    injection Hc as <-. injection Hc' as <-.
    exists Reference.CN_intermediate. split; reflexivity.
  - reflexivity.
  - reflexivity.
  - discriminate.
Defined.

(** C2 on a chain that loads and whose first certificate has an issuer
    that does not decode: the comparison of the first pair raises, and the
    verdict carries the text of that exception. *)
Lemma validate_never_raises_witness :
  result (validate_certificate_chain (X := Damaged.backend)
            (map Damaged.to_der
               [Damaged.bad_issuer Reference.leaf;
                Damaged.sound Reference.intermediate]))
  = Return (false,
            "Error validating certificate chain: "
            ++ str_of_exn Damaged.name_error).
Proof.
  apply (proj1 (proj2 (proj2 (validate_never_raises (X := Damaged.backend)
                                (map Damaged.to_der
                                   [Damaged.bad_issuer Reference.leaf;
                                    Damaged.sound Reference.intermediate])))
                  [Damaged.bad_issuer Reference.leaf;
                   Damaged.sound Reference.intermediate]
                  ltac:(repeat constructor))
           0%nat (Damaged.bad_issuer Reference.leaf)
           (Damaged.sound Reference.intermediate) Damaged.name_error
           eq_refl eq_refl).
  - intros j c c' Hj. exfalso. lia.
  - left. left. reflexivity.
Defined.

(** C3 does not hold of every chain that loads: the leaf here has an
    issuer that is not the subject of the next certificate and a subject
    that does not decode; it is not self-signed, yet the verdict is the
    handler's, the test at the mismatch having raised, not the broken
    chain at position 0. *)
Lemma first_mismatch_with_unreadable_subject :
  let certs := [Damaged.bad_subject Reference.leaf;
                Damaged.sound Reference.root] in
  let cert_ders := map Damaged.to_der certs in
  parses_to (X := Damaged.backend) cert_ders certs
  /\ issuer (X509Backend := Damaged.backend)
       (Damaged.bad_subject Reference.leaf)
     = Return Reference.CN_intermediate
  /\ subject (X509Backend := Damaged.backend) (Damaged.sound Reference.root)
     = Return Reference.CN_root
  /\ Reference.CN_intermediate <> Reference.CN_root
  /\ is_self_signed (X := Damaged.backend)
       (Damaged.bad_subject Reference.leaf)
     = Raise Damaged.name_error
  /\ result (validate_certificate_chain (X := Damaged.backend) cert_ders)
     = Return
         (false,
          "Error validating certificate chain: error parsing asn1 value: invalid value in Name")
  /\ result (validate_certificate_chain (X := Damaged.backend) cert_ders)
     <> Return
          (false,
           "Certificate chain broken at position 0: issuer does not match next certificate's subject").
Proof.
  cbv zeta. repeat split; try reflexivity.
  - repeat constructor.
  - discriminate.
  - discriminate.
Qed.

Lemma validate_stops_witness :
  result (validate_certificate_chain (X := Reference.backend)
            (map Reference.to_der
               [Reference.leaf; Reference.intermediate; Reference.stray]))
  = Return (false,
            "Certificate chain broken at position 1: issuer does not match next certificate's subject").
Proof.
  apply (validate_stops_at_first_mismatch (X := Reference.backend)
           (map Reference.to_der
              [Reference.leaf; Reference.intermediate; Reference.stray])
           [Reference.leaf; Reference.intermediate; Reference.stray]
           1 Reference.intermediate Reference.stray).
  - repeat constructor.
  - reflexivity.
  - reflexivity.
  - exists Reference.CN_root, Reference.CN_other.
    split; [reflexivity | split; [reflexivity | discriminate]].
  - intros j c c' Hj Hc Hc'.
    destruct j as [| j]; [| exfalso; lia].
    injection Hc as <-. injection Hc' as <-.
    exists Reference.CN_intermediate. split; reflexivity.
Defined.

(** C4 does not hold of every chain that loads: the two certificates here
    match, the issuer of the last does not decode, and the verdict is the
    handler's, neither of the two the claim names. *)
Lemma matching_chain_with_unreadable_issuer :
  let certs := [Damaged.sound Reference.leaf;
                Damaged.bad_issuer Reference.intermediate] in
  let cert_ders := map Damaged.to_der certs in
  parses_to (X := Damaged.backend) cert_ders certs
  /\ issuer (X509Backend := Damaged.backend) (Damaged.sound Reference.leaf)
     = Return Reference.CN_intermediate
  /\ subject (X509Backend := Damaged.backend)
       (Damaged.bad_issuer Reference.intermediate)
     = Return Reference.CN_intermediate
  /\ is_self_signed (X := Damaged.backend)
       (Damaged.bad_issuer Reference.intermediate)
     = Raise Damaged.name_error
  /\ result (validate_certificate_chain (X := Damaged.backend) cert_ders)
     = Return
         (false,
          "Error validating certificate chain: error parsing asn1 value: invalid value in Name")
  /\ (forall msg,
        result (validate_certificate_chain (X := Damaged.backend) cert_ders)
        <> Return (true, msg)).
Proof.
  cbv zeta. repeat split; try reflexivity.
  - repeat constructor.
  - discriminate.
Qed.

Lemma validate_matching_chain_witness :
  result (validate_certificate_chain (X := Reference.backend)
            (map Reference.to_der
               [Reference.leaf; Reference.intermediate; Reference.root]))
  = Return (true,
            "Certificate chain is valid and ends with self-signed root CA").
Proof.
  apply (validate_matching_chain (X := Reference.backend)
           (map Reference.to_der
              [Reference.leaf; Reference.intermediate; Reference.root])
           [Reference.leaf; Reference.intermediate] Reference.root).
  - repeat constructor.
  - simpl. lia.
  - intros j c c' Hc Hc'.
    destruct j as [| [| j]].
    + injection Hc as <-. injection Hc' as <-.
      exists Reference.CN_intermediate. split; reflexivity.
    + injection Hc as <-. injection Hc' as <-.
      exists Reference.CN_root. split; reflexivity.
    + destruct j; discriminate Hc'.
Defined.

(** C5 does not hold of every chain of one certificate that loads: the
    subject of this one does not decode, and the verdict is the handler's,
    not one of the two acceptances. *)
Lemma single_certificate_with_unreadable_subject :
  load_der_x509_certificate (X509Backend := Damaged.backend)
    (Damaged.to_der (Damaged.bad_subject Reference.leaf))
  = Return (Damaged.bad_subject Reference.leaf)
  /\ issuer (X509Backend := Damaged.backend)
       (Damaged.bad_subject Reference.leaf)
     = Return Reference.CN_intermediate
  /\ subject (X509Backend := Damaged.backend)
       (Damaged.bad_subject Reference.leaf)
     = Raise Damaged.name_error
  /\ result (validate_certificate_chain (X := Damaged.backend)
               [Damaged.to_der (Damaged.bad_subject Reference.leaf)])
     = Return
         (false,
          "Error validating certificate chain: error parsing asn1 value: invalid value in Name")
  /\ (forall msg,
        result (validate_certificate_chain (X := Damaged.backend)
                  [Damaged.to_der (Damaged.bad_subject Reference.leaf)])
        <> Return (true, msg)).
Proof.
  repeat split; try reflexivity. discriminate.
Qed.

Lemma validate_single_certificate_witness :
  result (validate_certificate_chain (X := Reference.backend)
            [Reference.to_der Reference.self_signed_server])
  = Return (true, "Valid self-signed certificate")
  /\ result (validate_certificate_chain (X := Reference.backend)
               [Reference.to_der Reference.leaf])
     = Return (true, "Certificate chain is valid and properly ordered")
  /\ result (validate_certificate_chain (X := Damaged.backend)
               [Damaged.to_der (Damaged.bad_subject Reference.leaf)])
     = Return (false,
               "Error validating certificate chain: "
               ++ str_of_exn Damaged.name_error).
Proof.
  split; [| split].
  - apply (proj1 (validate_single_certificate (X := Reference.backend)
                    (Reference.to_der Reference.self_signed_server)
                    Reference.self_signed_server eq_refl)
             Reference.CN_server eq_refl eq_refl).
  - apply (proj1 (proj2 (validate_single_certificate (X := Reference.backend)
                           (Reference.to_der Reference.leaf)
                           Reference.leaf eq_refl))
             Reference.CN_server Reference.CN_intermediate eq_refl eq_refl).
    discriminate.
  - apply (proj2 (proj2 (validate_single_certificate (X := Damaged.backend)
                           (Damaged.to_der (Damaged.bad_subject Reference.leaf))
                           (Damaged.bad_subject Reference.leaf) eq_refl))
             Damaged.name_error eq_refl).
Defined.

Lemma validate_all_self_signed_witness :
  exists msg,
    result (validate_certificate_chain (X := Reference.backend)
              (map Reference.to_der
                 [Reference.self_signed_server; Reference.root]))
    = Return (true, msg).
Proof.
  apply (validate_all_self_signed (X := Reference.backend)
           (map Reference.to_der
              [Reference.self_signed_server; Reference.root])
           [Reference.self_signed_server; Reference.root]).
  - discriminate.
  - repeat constructor.
  - constructor; [| constructor; [| constructor]].
    + exists Reference.CN_server. split; reflexivity.
    + exists Reference.CN_root. split; reflexivity.
Defined.

(** C7 does not hold on bytes that do not load: asking for the unsupported
    format ['xml'] raises the loader's error, not the unsupported-format
    one, and asking for ['pem'] raises as well. *)
Lemma format_certificate_malformed_bytes :
  result (format_certificate (X := Reference.backend) Reference.garbage "xml")
  = Raise (ValueError "error parsing asn1 value: unexpected tag")
  /\ result (format_certificate (X := Reference.backend)
               Reference.garbage "xml")
     <> Raise (ValueError ("Unsupported format: " ++ "xml"))
  /\ result (format_certificate (X := Reference.backend)
               Reference.garbage "pem")
     = Raise (ValueError "error parsing asn1 value: unexpected tag").
Proof.
  split; [reflexivity | split; [discriminate | reflexivity]].
Qed.

Lemma format_certificate_on_well_formed_witness :
  result (format_certificate (X := Reference.backend)
            (Reference.to_der Reference.leaf) "xml")
  = Raise (ValueError ("Unsupported format: " ++ "xml"))
  /\ result (format_certificate (X := Reference.backend)
               (Reference.to_der Reference.leaf) "der")
     = Return (PyBytes (Reference.to_der Reference.leaf)).
Proof.
  split.
  - apply (proj2 (proj1 (format_certificate_on_well_formed
                           (X := Reference.backend)
                           (Reference.to_der Reference.leaf) "xml"
                           Reference.leaf eq_refl eq_refl))).
    split; discriminate.
  - apply (proj2 (proj2 (format_certificate_on_well_formed
                           (X := Reference.backend)
                           (Reference.to_der Reference.leaf) "der"
                           Reference.leaf eq_refl eq_refl))).
    reflexivity.
Defined.

Lemma format_der_pem_round_trip_witness :
  exists (der : bytes) (pem : string) (cert' : Reference.cert),
    result (format_certificate (X := Reference.backend)
              (Reference.to_der Reference.leaf) "der")
    = Return (PyBytes der)
    /\ result (format_certificate (X := Reference.backend) der "pem")
       = Return (PyStr pem)
    /\ result (load_pem (X := Reference.backend) (str_encode pem))
       = Return cert'
    /\ same_fields (X := Reference.backend) Reference.leaf cert'.
Proof.
  exact (format_der_pem_round_trip (X := Reference.backend)
           reference_backend_lawful
           (Reference.to_der Reference.leaf) Reference.leaf eq_refl).
Defined.

Lemma main_bundle_layout_witness :
  exists certificates : certificates_dict,
    returned_certificates
      (map Reference.to_der
         [Reference.leaf; Reference.intermediate; Reference.root])
    = Return certificates
    /\ result (main_bundle (X := Reference.backend) certificates "pem")
       = Return (PyStr (pem_block (X := Reference.backend) Reference.leaf
                        ++ pem_block (X := Reference.backend)
                             Reference.intermediate
                        ++ pem_block (X := Reference.backend) Reference.root))
    /\ result (main_bundle (X := Reference.backend) certificates "der")
       = Return (PyBytes (Reference.to_der Reference.leaf
                          ++ Reference.to_der Reference.intermediate
                          ++ Reference.to_der Reference.root)%list).
Proof.
  apply (main_bundle_layout (X := Reference.backend)
           (Reference.to_der Reference.leaf)
           (map Reference.to_der [Reference.intermediate; Reference.root])
           Reference.leaf [Reference.intermediate; Reference.root]).
  - repeat constructor.
  - repeat constructor.
Defined.

(** * More of the program *)

(** ** The loop over the lines of the output *)

(** Outside a block, lines without a marker change nothing. *)
Lemma scan_plain_outside (st : scan_state) (lines : list string) :
  scan_in_cert st = false ->
  Forall is_plain_line lines ->
  fold_left scan_line lines st = st.
Proof.
  intros Hout Hplain. induction Hplain as [| l ls [Hb He] _ IH]; simpl.
  - reflexivity.
  - unfold scan_line at 2. rewrite Hb, He, Hout. exact IH.
Qed.

(** Inside a block, lines without a marker are added to it. *)
Lemma scan_plain_inside (found current lines : list string) :
  Forall is_plain_line lines ->
  fold_left scan_line lines
    {| scan_certs := found; scan_current_cert := current;
       scan_in_cert := true |}
  = {| scan_certs := found;
       scan_current_cert := (current ++ lines)%list;
       scan_in_cert := true |}.
Proof.
  intros Hplain. revert current.
  induction Hplain as [| l ls [Hb He] _ IH]; intros current; simpl.
  - rewrite app_nil_r. reflexivity.
  - unfold scan_line at 2. rewrite Hb, He. simpl.
    rewrite IH, <- app_assoc. reflexivity.
Qed.

(** A well-formed block adds its text to [certs], wherever the loop was. *)
Lemma scan_block (st : scan_state) (b : pem_lines) :
  well_formed_block b ->
  fold_left scan_line (block_lines b) st
  = {| scan_certs := (scan_certs st ++ [join_lines (block_lines b)])%list;
       scan_current_cert := block_lines b;
       scan_in_cert := false |}.
Proof.
  intros [Hopen [Hbody [Hb He]]]. unfold block_lines.
  simpl fold_left. unfold scan_line at 2. rewrite Hopen.
  rewrite fold_left_app, (scan_plain_inside _ _ _ Hbody). simpl.
  unfold scan_line. rewrite Hb, He. reflexivity.
Qed.

(** Lines that close no block leave [certs] as it is. *)
Lemma scan_without_close (st : scan_state) (lines : list string) :
  Forall (fun line => closes_block line = false) lines ->
  scan_certs (fold_left scan_line lines st) = scan_certs st.
Proof.
  intros Hlines. revert st.
  induction Hlines as [| l ls Hl _ IH]; intros st; simpl.
  - reflexivity.
  - rewrite IH. unfold scan_line, closes_block in *.
    destruct (str_contains begin_marker l); [reflexivity |].
    destruct (str_contains end_marker l); [discriminate Hl |].
    destruct (scan_in_cert st); reflexivity.
Qed.

Lemma scan_output_lines (st : scan_state)
  (items : list (list string * pem_lines)) :
  scan_in_cert st = false ->
  Forall (fun item => Forall is_plain_line (fst item)
                      /\ well_formed_block (snd item)) items ->
  scan_certs (fold_left scan_line (output_lines items) st)
  = (scan_certs st
     ++ map (fun item => join_lines (block_lines (snd item))) items)%list
  /\ scan_in_cert (fold_left scan_line (output_lines items) st) = false.
Proof.
  intros Hout Hitems. revert st Hout.
  induction Hitems as [| [noise b] items [Hnoise Hb] _ IH]; intros st Hout.
  - simpl. rewrite app_nil_r. split; [reflexivity | exact Hout].
  - unfold output_lines. simpl map. simpl List.concat.
    rewrite !fold_left_app.
    simpl fst in *. simpl snd in *.
    rewrite (scan_plain_outside _ _ Hout Hnoise), (scan_block _ _ Hb).
    fold (output_lines items).
    destruct (IH {| scan_certs :=
                      (scan_certs st ++ [join_lines (block_lines b)])%list;
                    scan_current_cert := block_lines b;
                    scan_in_cert := false |} eq_refl) as [IHc IHi].
    rewrite IHc, IHi. simpl scan_certs. rewrite <- app_assoc.
    split; reflexivity.
Qed.

Lemma scan_well_formed_output
  (items : list (list string * pem_lines)) (trailing : list string) :
  Forall (fun item => Forall is_plain_line (fst item)
                      /\ well_formed_block (snd item)) items ->
  Forall (fun line => closes_block line = false) trailing ->
  scan_certs
    (fold_left scan_line (output_lines items ++ trailing)%list
       {| scan_certs := []; scan_current_cert := []; scan_in_cert := false |})
  = map (fun item => join_lines (block_lines (snd item))) items.
Proof.
  intros Hitems Htrailing.
  rewrite fold_left_app, (scan_without_close _ _ Htrailing).
  destruct (scan_output_lines
              {| scan_certs := []; scan_current_cert := [];
                 scan_in_cert := false |} items eq_refl Hitems) as [Hc _].
  rewrite Hc. reflexivity.
Qed.

(** X1: from output made of well-formed certificate blocks, each after
    lines with no marker, and ending in lines that close no block (more
    text, or a block cut short), the loop returns the text of each block,
    its lines joined by line feeds, in order, and nothing else. *)
Theorem extract_certificates_round_trip
  (items : list (list string * pem_lines)) (trailing : list string) :
  Forall (fun item => Forall is_plain_line (fst item)
                      /\ well_formed_block (snd item)) items ->
  Forall (fun line => closes_block line = false) trailing ->
  extract_certificates (output_lines items ++ trailing)%list
  = map (fun item => join_lines (block_lines (snd item))) items.
Proof.
  intros Hitems Htrailing. unfold extract_certificates.
  apply scan_well_formed_output; assumption.
Qed.

Lemma scan_count (st : scan_state) (lines : list string) :
  List.length (scan_certs (fold_left scan_line lines st))
  = (List.length (scan_certs st)
     + List.length (filter closes_block lines))%nat.
Proof.
  revert st. induction lines as [| l ls IH]; intros st; simpl.
  - lia.
  - rewrite IH. unfold scan_line, closes_block.
    destruct (str_contains begin_marker l); simpl; [lia |].
    destruct (str_contains end_marker l); simpl.
    + rewrite length_app. simpl. lia.
    + destruct (scan_in_cert st); simpl; lia.
Qed.

(** X2: the loop finds as many certificates as there are lines with the
    closing marker and without the opening one, whether or not an opening
    line came before them. *)
Theorem extract_certificates_count (lines : list string) :
  List.length (extract_certificates lines)
  = List.length (filter closes_block lines).
Proof.
  unfold extract_certificates. rewrite scan_count. reflexivity.
Qed.

(** ** Lines and text *)

Lemma text_char_ordinary (c : ascii) :
  text_char c = true ->
  line_break c = false /\ (N_of_ascii c =? 13)%N = false
  /\ (N_of_ascii c =? 194)%N = false /\ (N_of_ascii c =? 226)%N = false.
Proof.
  unfold text_char. intros H.
  apply andb_prop in H. destruct H as [H H13].
  apply andb_prop in H. destruct H as [Hlt Hbreak].
  apply negb_true_iff in H13. apply negb_true_iff in Hbreak.
  apply N.ltb_lt in Hlt.
  repeat split; try assumption; apply N.eqb_neq; lia.
Qed.

(** A line of text is read through without a boundary being found. *)
Lemma splitlines_from_text (line cur rest : string) :
  text_line line = true ->
  splitlines_from cur (line ++ rest)
  = splitlines_from (cur ++ line) rest.
Proof.
  revert cur. induction line as [| c line IH]; intros cur Htext.
  - simpl. rewrite append_empty_r. reflexivity.
  - simpl in Htext. apply andb_prop in Htext. destruct Htext as [Hc Hline].
    destruct (text_char_ordinary c Hc) as [Hbreak [H13 [H194 H226]]].
    simpl append. cbn [splitlines_from].
    rewrite Hbreak, H13, H194, H226.
    rewrite (IH _ Hline), append_assoc. reflexivity.
Qed.

Lemma splitlines_from_line_feed (cur rest : string) :
  splitlines_from cur (line_feed ++ rest)
  = cur :: splitlines_from EmptyString rest.
Proof. reflexivity. Qed.

(** Lines of text joined by line feeds split into the same lines, as long
    as the last one is not empty. *)
Lemma splitlines_join_lines (lines : list string) :
  Forall (fun line => text_line line = true) lines ->
  last lines line_feed <> EmptyString ->
  splitlines (join_lines lines) = lines.
Proof.
  unfold splitlines, join_lines.
  induction lines as [| x [| y rest] IH]; intros Htext Hlast.
  - reflexivity.
  - inversion Htext as [| ? ? Hx _]; subst. simpl String.concat.
    rewrite <- (append_empty_r x) at 1.
    rewrite (splitlines_from_text _ _ _ Hx). simpl.
    destruct x; [contradiction Hlast; reflexivity | reflexivity].
  - inversion Htext as [| ? ? Hx Hrest]; subst.
    change (String.concat line_feed (x :: y :: rest))
      with (x ++ line_feed ++ String.concat line_feed (y :: rest))%string.
    rewrite (splitlines_from_text _ _ _ Hx), splitlines_from_line_feed.
    simpl append. rewrite (IH Hrest Hlast). reflexivity.
Qed.

(** X3: the same from the text of the output: when its lines are 7-bit
    text and the last is not empty, splitting the output into lines and
    running the loop returns the text of each well-formed block, in order. *)
Theorem extract_certificates_from_text
  (items : list (list string * pem_lines)) (trailing : list string) :
  Forall (fun item => Forall is_plain_line (fst item)
                      /\ well_formed_block (snd item)) items ->
  Forall (fun line => closes_block line = false) trailing ->
  Forall (fun line => text_line line = true)
    (output_lines items ++ trailing)%list ->
  last (output_lines items ++ trailing)%list line_feed <> EmptyString ->
  extract_certificates
    (splitlines (join_lines (output_lines items ++ trailing)%list))
  = map (fun item => join_lines (block_lines (snd item))) items.
Proof.
  intros Hitems Htrailing Htext Hlast.
  rewrite (splitlines_join_lines _ Htext Hlast).
  unfold extract_certificates.
  apply scan_well_formed_output; assumption.
Qed.

(** ** From the output of openssl to the dictionary *)

Section Retrieval.

Context {X : X509Backend}.

Lemma pem_blocks_loop (blocks : list string) (certs : list Certificate)
  (cert_ders : list bytes) :
  pem_parses_to blocks certs ->
  for_updating blocks
    (fun cert_ders cert_pem =>
       cert <- load_pem (str_encode cert_pem) ;;
       ret (cert_ders ++ [public_bytes DER cert])%list)
    cert_ders
  = (map (fun block => LoadPem (str_encode block)) blocks,
     Return (cert_ders ++ map (public_bytes DER) certs)%list).
Proof.
  intros Hp. revert cert_ders.
  induction Hp as [| b c bs cs Hb _ IH]; intros cert_ders.
  - simpl. rewrite app_nil_r. reflexivity.
  - cbn [for_updating]. unfold load_pem at 1. rewrite Hb.
    unfold bind at 2. unfold ret at 1. unfold bind.
    rewrite IH. simpl. rewrite <- app_assoc. reflexivity.
Qed.

Lemma pem_blocks_loop_raises (pre post : list string) (block : string)
  (certs : list Certificate) (e : exn) (cert_ders : list bytes) :
  pem_parses_to pre certs ->
  load_pem_x509_certificate (str_encode block) = Raise e ->
  for_updating (pre ++ block :: post)%list
    (fun cert_ders cert_pem =>
       cert <- load_pem (str_encode cert_pem) ;;
       ret (cert_ders ++ [public_bytes DER cert])%list)
    cert_ders
  = (map (fun b => LoadPem (str_encode b)) (pre ++ [block])%list, Raise e).
Proof.
  intros Hp Hblock. revert cert_ders.
  induction Hp as [| b c bs cs Hb _ IH]; intros cert_ders.
  - simpl. unfold load_pem. rewrite Hblock. reflexivity.
  - cbn [for_updating app]. unfold load_pem at 1. rewrite Hb.
    unfold bind at 2. unfold ret at 1. unfold bind.
    rewrite IH. reflexivity.
Qed.

Lemma validate_returns (cert_ders : list bytes) :
  exists log verdict,
    validate_certificate_chain cert_ders = (log, Return verdict).
Proof.
  unfold validate_certificate_chain.
  destruct (len cert_ders =? 0); [eexists; eexists; reflexivity |].
  match goal with |- context [try_except ?m ?h] => destruct m as [log [a | e]] end.
  - exists log, a. reflexivity.
  - eexists. eexists. reflexivity.
Qed.

Lemma returned_certificates_cons (first : bytes) (rest : list bytes) :
  returned_certificates (first :: rest)
  = Return {| peer_certificate := first; peer_certificate_chain := rest |}.
Proof.
  unfold returned_certificates. simpl getitem.
  destruct rest as [| d ds]; [reflexivity |].
  replace (len (first :: d :: ds) >? 1) with true; [reflexivity |].
  symmetry. apply Z.gtb_lt. unfold len. simpl List.length. lia.
Qed.

Lemma certificates_from_stdout_result
  (stdout : bytes) (output : string)
  (block : string) (blocks : list string)
  (cert : Certificate) (certs : list Certificate) :
  bytes_decode stdout = Return output ->
  extract_certificates (splitlines output) = block :: blocks ->
  pem_parses_to (block :: blocks) (cert :: certs) ->
  result (certificates_from_stdout stdout)
  = Return {| peer_certificate := public_bytes DER cert;
              peer_certificate_chain := map (public_bytes DER) certs |}.
Proof.
  intros Hdecode Hblocks Hp. unfold certificates_from_stdout.
  rewrite Hdecode, bind_lift_return. cbv zeta. rewrite Hblocks.
  replace (len (block :: blocks) =? 0) with false
    by (symmetry; apply Z.eqb_neq; unfold len; simpl List.length; lia).
  unfold pem_blocks_to_der. rewrite (pem_blocks_loop _ _ _ Hp).
  simpl app. unfold bind at 1.
  destruct (validate_returns
              (public_bytes DER cert :: map (public_bytes DER) certs))
    as [log [verdict ->]].
  unfold bind. rewrite returned_certificates_cons. reflexivity.
Qed.

Lemma certificates_from_stdout_none (stdout : bytes) (output : string) :
  bytes_decode stdout = Return output ->
  Forall (fun line => closes_block line = false) (splitlines output) ->
  certificates_from_stdout stdout
  = ([], Raise (OtherException
                  "No certificates found in the server response")).
Proof.
  intros Hdecode Hnone. unfold certificates_from_stdout.
  rewrite Hdecode, bind_lift_return. cbv zeta.
  assert (Hempty : extract_certificates (splitlines output) = []).
  { unfold extract_certificates.
    destruct (scan_certs _) as [| b bs] eqn:E; [reflexivity |].
    rewrite (scan_without_close _ _ Hnone) in E. discriminate E. }
  rewrite Hempty. reflexivity.
Qed.

(** X4: when the output of openssl decodes and every certificate block
    found in it loads, the function returns the first certificate, as DER,
    as [peer_certificate] and the others, in order, as
    [peer_certificate_chain], whatever [validate_certificate_chain] says of
    the chain. *)
Theorem certificates_from_stdout_returns
  (stdout : bytes) (output : string)
  (block : string) (blocks : list string)
  (cert : Certificate) (certs : list Certificate) :
  bytes_decode stdout = Return output ->
  extract_certificates (splitlines output) = block :: blocks ->
  pem_parses_to (block :: blocks) (cert :: certs) ->
  result (certificates_from_stdout stdout)
  = Return {| peer_certificate := public_bytes DER cert;
              peer_certificate_chain := map (public_bytes DER) certs |}.
Proof.
  intros Hdecode Hblocks Hp.
  exact (certificates_from_stdout_result _ _ _ _ _ _ Hdecode Hblocks Hp).
Qed.

(** X5: when no line of the output closes a certificate block, the
    function raises [Exception("No certificates found in the server
    response")] and has loaded nothing. *)
Theorem certificates_from_stdout_finds_none
  (stdout : bytes) (output : string) :
  bytes_decode stdout = Return output ->
  Forall (fun line => closes_block line = false) (splitlines output) ->
  certificates_from_stdout stdout
  = ([], Raise (OtherException
                  "No certificates found in the server response")).
Proof.
  intros Hdecode Hnone.
  exact (certificates_from_stdout_none _ _ Hdecode Hnone).
Qed.

(** X6: when a certificate block found in the output does not load (those
    before it do), the function raises the loader's exception as it is;
    the blocks after it are not loaded and the chain is not validated. *)
Theorem certificates_from_stdout_bad_block
  (stdout : bytes) (output : string)
  (pre post : list string) (block : string)
  (certs : list Certificate) (e : exn) :
  bytes_decode stdout = Return output ->
  extract_certificates (splitlines output) = (pre ++ block :: post)%list ->
  pem_parses_to pre certs ->
  load_pem_x509_certificate (str_encode block) = Raise e ->
  certificates_from_stdout stdout
  = (map (fun b => LoadPem (str_encode b)) (pre ++ [block])%list, Raise e).
Proof.
  intros Hdecode Hblocks Hp Hblock. unfold certificates_from_stdout.
  rewrite Hdecode, bind_lift_return. cbv zeta. rewrite Hblocks.
  replace (len (pre ++ block :: post)%list =? 0) with false
    by (symmetry; apply Z.eqb_neq; unfold len; rewrite length_app;
        simpl List.length; lia).
  unfold pem_blocks_to_der.
  rewrite (pem_blocks_loop_raises _ _ _ _ _ _ Hp Hblock). reflexivity.
Qed.

End Retrieval.

(** ** More on [validate_certificate_chain] *)

Section Verdicts.

Context {X : X509Backend}.

Lemma readable_is_self_signed (certs : list Certificate) (c : Certificate) :
  names_readable certs -> In c certs ->
  exists b : bool, is_self_signed c = Return b.
Proof.
  intros Hread Hin.
  destruct (proj1 (Forall_forall _ _) Hread c Hin) as [[s Hs] [i Hi]].
  exists (Name_eqb i s). apply is_self_signed_read; assumption.
Qed.

Lemma readable_pair_never_raises (certs : list Certificate)
  (c c' : Certificate) (e : exn) :
  names_readable certs -> In c certs -> In c' certs ->
  ~ pair_raises c c' e.
Proof.
  intros Hread Hin Hin' Hraises.
  destruct (proj1 (Forall_forall _ _) Hread c Hin) as [_ [i Hi]].
  destruct (proj1 (Forall_forall _ _) Hread c' Hin') as [[s Hs] _].
  destruct Hraises as [Hr | [a [_ Hr]]]; congruence.
Qed.

(** X7: a non-empty chain that loads and whose names can all be read is
    rejected exactly when the first adjacent pair whose issuer and subject
    differ begins with a certificate that is not self-signed. *)
Theorem validate_rejects_exactly
  (cert_ders : list bytes) (certs : list Certificate) :
  parses_to cert_ders certs ->
  certs <> [] ->
  names_readable certs ->
  (exists msg,
     result (validate_certificate_chain cert_ders) = Return (false, msg))
  <-> (exists (i : nat) (c c' : Certificate),
         nth_error certs i = Some c /\ nth_error certs (S i) = Some c'
         /\ pair_differs c c' /\ matches_before certs i
         /\ is_self_signed c = Return false).
Proof.
  intros Hp Hne Hread. split.
  - intros [msg Hmsg].
    destruct (first_mismatch_or_all_match certs)
      as [Hall | [i [c [c' [Hc [Hc' [Hbefore [Hdiff | [e Hraises]]]]]]]]].
    + destruct (exists_last Hne) as [front [last_cert E]]. subst certs.
      rewrite (validate_all_match _ _ _ Hp Hall) in Hmsg.
      destruct (readable_is_self_signed _ last_cert Hread) as [b Hb];
        [apply in_or_app; right; left; reflexivity |].
      rewrite Hb in Hmsg. unfold result, snd, caught in Hmsg.
      destruct (_ && _); [discriminate Hmsg |].
      destruct b; discriminate Hmsg.
    + exists i, c, c'. repeat split; try assumption.
      rewrite (validate_pair_differs _ _ _ _ _ Hp Hc Hc' Hbefore Hdiff)
        in Hmsg.
      destruct (readable_is_self_signed _ c Hread (nth_error_In _ _ Hc))
        as [b Hb].
      rewrite Hb in Hmsg. rewrite Hb.
      destruct b; [discriminate Hmsg | reflexivity].
    + exfalso.
      exact (readable_pair_never_raises _ _ _ _ Hread
               (nth_error_In _ _ Hc) (nth_error_In _ _ Hc') Hraises).
  - intros [i [c [c' [Hc [Hc' [Hdiff [Hbefore Hss]]]]]]].
    rewrite (validate_pair_differs _ _ _ _ _ Hp Hc Hc' Hbefore Hdiff).
    rewrite Hss. eexists. reflexivity.
Qed.

(** X8: for a non-empty chain that loads, whose names can all be read and
    in which no certificate but the last is self-signed, the chain is
    accepted exactly when every adjacent pair matches. *)
Theorem validate_accepts_ordered_chains
  (cert_ders : list bytes) (certs : list Certificate) :
  parses_to cert_ders certs ->
  certs <> [] ->
  names_readable certs ->
  (forall (i : nat) (c : Certificate),
     (S i < List.length certs)%nat -> nth_error certs i = Some c ->
     is_self_signed c = Return false) ->
  (exists msg,
     result (validate_certificate_chain cert_ders) = Return (true, msg))
  <-> all_match certs.
Proof.
  intros Hp Hne Hread Hnot_self. split.
  - intros [msg Hmsg].
    destruct (first_mismatch_or_all_match certs)
      as [Hall | [i [c [c' [Hc [Hc' [Hbefore [Hdiff | [e Hraises]]]]]]]]];
      [exact Hall | |].
    + assert (Hi : (S i < List.length certs)%nat)
        by (apply nth_error_Some; rewrite Hc'; discriminate).
      rewrite (validate_pair_differs _ _ _ _ _ Hp Hc Hc' Hbefore Hdiff)
        in Hmsg.
      rewrite (Hnot_self i c Hi Hc) in Hmsg. discriminate Hmsg.
    + exfalso.
      exact (readable_pair_never_raises _ _ _ _ Hread
               (nth_error_In _ _ Hc) (nth_error_In _ _ Hc') Hraises).
  - intros Hall.
    destruct (exists_last Hne) as [front [last_cert E]]. subst certs.
    rewrite (validate_all_match _ _ _ Hp Hall).
    destruct (readable_is_self_signed _ last_cert Hread) as [b Hb];
      [apply in_or_app; right; left; reflexivity |].
    rewrite Hb. unfold result, snd, caught.
    destruct (_ && _); [| destruct b]; eexists; reflexivity.
Qed.

(** X9: a chain that loads is loaded whole, each element once and in
    order, before any pair is compared: also when the verdict is settled at
    the first pair. *)
Theorem validate_loads_whole_chain
  (cert_ders : list bytes) (certs : list Certificate) :
  parses_to cert_ders certs ->
  calls (validate_certificate_chain cert_ders) = map LoadDer cert_ders.
Proof.
  intros Hp. destruct certs as [| c0 certs].
  - inversion Hp; subst. reflexivity.
  - assert (Hne : c0 :: certs <> []) by discriminate.
    destruct (first_mismatch_or_all_match (c0 :: certs))
      as [Hall | [i [c [c' [Hc [Hc' [Hbefore [Hdiff | [e Hraises]]]]]]]]].
    + destruct (exists_last Hne) as [front [last_cert E]].
      rewrite E in Hp, Hall.
      rewrite (validate_all_match _ _ _ Hp Hall). reflexivity.
    + rewrite (validate_pair_differs _ _ _ _ _ Hp Hc Hc' Hbefore Hdiff).
      reflexivity.
    + rewrite (validate_pair_raises _ _ _ _ _ _ Hp Hc Hc' Hbefore Hraises).
      reflexivity.
Qed.

(** X10: loading stops at the first element that does not load: the
    elements after it are never handed to the loader. *)
Theorem validate_stops_loading
  (pre post : list bytes) (d : bytes)
  (certs : list Certificate) (e : exn) :
  parses_to pre certs ->
  load_der_x509_certificate d = Raise e ->
  calls (validate_certificate_chain (pre ++ d :: post)%list)
  = map LoadDer (pre ++ [d])%list.
Proof.
  intros Hpre Hd. rewrite (validate_load_raises _ _ _ _ _ Hpre Hd).
  reflexivity.
Qed.

End Verdicts.

(** ** More on the bundle *)

Section Bundles.

Context {X : X509Backend}.

(** X11: in DER mode only the leaf is loaded and written again; the chain
    certificates are appended as they are, whatever their bytes. *)
Theorem main_bundle_der_passes_chain_through
  (leaf_der : bytes) (chain_ders : list bytes) (leaf_cert : Certificate) :
  load_der_x509_certificate leaf_der = Return leaf_cert ->
  main_bundle {| peer_certificate := leaf_der;
                 peer_certificate_chain := chain_ders |} "der"
  = ([LoadDer leaf_der],
     Return (PyBytes (public_bytes DER leaf_cert
                      ++ List.concat chain_ders)%list)).
Proof.
  intros Hleaf. unfold main_bundle.
  simpl peer_certificate. simpl peer_certificate_chain.
  rewrite (format_certificate_der _ _ Hleaf).
  unfold bind at 1. rewrite bundle_loop_der. reflexivity.
Qed.

Lemma bundle_loop_pem_raises (pre post : list bytes) (d : bytes)
  (certs : list Certificate) (e : exn) (text : string) :
  parses_to pre certs ->
  Forall (fun c => utf8_valid (public_bytes PEM c) = true) certs ->
  load_der_x509_certificate d = Raise e ->
  for_updating (pre ++ d :: post)%list
    (fun bundle cert =>
       if ("pem" =? "pem")%string then
         block <- format_certificate cert "pem" ;;
         lift (py_add bundle block)
       else
         lift (py_add bundle (PyBytes cert)))
    (PyStr text)
  = (map LoadDer (pre ++ [d])%list, Raise e).
Proof.
  intros Hp Htext Hd.
  match goal with |- for_updating _ ?b _ = _ => set (body := b) end.
  revert text Htext.
  induction Hp as [| d0 c ds cs Hd0 _ IH]; intros text Htext.
  - cbn [app for_updating].
    assert (Hbody : body (PyStr text) d = ([LoadDer d], Raise e)).
    { unfold body. change ("pem" =? "pem")%string with true. cbv iota.
      rewrite (format_certificate_malformed _ _ _ Hd). reflexivity. }
    rewrite Hbody. reflexivity.
  - inversion Htext as [| c0 cs0 Hc Hcs]; subst.
    assert (Hbody : body (PyStr text) d0
                    = ([LoadDer d0], Return (PyStr (text ++ pem_block c)))).
    { unfold body. change ("pem" =? "pem")%string with true. cbv iota.
      rewrite (format_certificate_pem _ _ Hd0 Hc). reflexivity. }
    cbn [app for_updating]. rewrite Hbody. unfold bind.
    rewrite (IH _ Hcs). reflexivity.
Qed.

(** X12: in PEM mode every certificate is loaded: when one of the
    retrieved certificates, leaf or chain, does not load (those before it
    do, their PEM forms being text), building the bundle raises the
    loader's exception, and the certificates after it are not loaded. *)
Theorem main_bundle_pem_raises
  (pre post : list bytes) (d : bytes)
  (certs : list Certificate) (e : exn) :
  parses_to pre certs ->
  Forall (fun c => utf8_valid (public_bytes PEM c) = true) certs ->
  load_der_x509_certificate d = Raise e ->
  exists certificates : certificates_dict,
    returned_certificates (pre ++ d :: post)%list = Return certificates
    /\ main_bundle certificates "pem"
       = (map LoadDer (pre ++ [d])%list, Raise e).
Proof.
  intros Hp Htext Hd.
  destruct Hp as [| d0 c ds cs Hd0 Hrest].
  - cbn [app]. rewrite returned_certificates_cons.
    eexists. split; [reflexivity |].
    unfold main_bundle. simpl peer_certificate.
    rewrite (format_certificate_malformed _ _ _ Hd). reflexivity.
  - inversion Htext as [| c0 cs0 Hc Hcs]; subst.
    cbn [app]. rewrite returned_certificates_cons.
    eexists. split; [reflexivity |].
    unfold main_bundle. simpl peer_certificate. simpl peer_certificate_chain.
    rewrite (format_certificate_pem _ _ Hd0 Hc). unfold bind at 1.
    rewrite (bundle_loop_pem_raises _ _ _ _ _ _ Hrest Hcs Hd). reflexivity.
Qed.

End Bundles.

(** ** The command line tool *)

Section ToolProperties.

Context {X : X509Backend} {W : Host}.

Lemma main_bundle_pem (leaf_der : bytes) (chain_ders : list bytes)
  (leaf_cert : Certificate) (chain_certs : list Certificate) :
  parses_to (leaf_der :: chain_ders) (leaf_cert :: chain_certs) ->
  Forall (fun c => utf8_valid (public_bytes PEM c) = true)
    (leaf_cert :: chain_certs) ->
  main_bundle {| peer_certificate := leaf_der;
                 peer_certificate_chain := chain_ders |} "pem"
  = (map LoadDer (leaf_der :: chain_ders),
     Return (PyStr (str_concat (map pem_block (leaf_cert :: chain_certs))))).
Proof.
  intros Hp Htext.
  inversion Hp as [| d c ds cs Hleaf Hchain]; subst.
  inversion Htext as [| c0 cs0 Hleaf_text Hchain_text]; subst.
  unfold main_bundle. simpl peer_certificate. simpl peer_certificate_chain.
  rewrite (format_certificate_pem _ _ Hleaf Hleaf_text). unfold bind at 1.
  rewrite (bundle_loop_pem _ _ _ Hchain Hchain_text). reflexivity.
Qed.

(** With lawful codecs, what was written as DER loads again, with the same
    fields. *)
Lemma lawful_der_reloads (L : LawfulBackend X) (certs : list Certificate) :
  exists certs' : list Certificate,
    parses_to (map (public_bytes DER) certs) certs'
    /\ Forall2 same_fields certs certs'.
Proof.
  induction certs as [| c certs [certs' [Hp Hsame]]].
  - exists []. split; constructor.
  - destruct (der_reads_back c) as [c' [Hc' Hsame']].
    exists (c' :: certs'). split; constructor; assumption.
Qed.

(** X13: when [--test] is not given, the format is PEM, the output of
    openssl decodes, the certificate blocks in it load (with lawful codecs)
    and the output file, if one is asked for, can be written, [main] runs
    openssl once against [args.server], calls the loaders, and ends by
    writing to [args.output], or printing when no path is given, the PEM
    blocks of certificates with the fields of those the server sent, in
    order; it then returns.  The verdict on the chain plays no part. *)
Theorem main_outputs_pem_bundle (L : LawfulBackend X)
  (args : arguments) (stdout : bytes) (output : string)
  (block : string) (blocks : list string)
  (cert : Certificate) (certs : list Certificate) :
  args_test args = false ->
  args_format args = "pem" ->
  openssl_s_client (args_server args) (args_port args) = Return stdout ->
  bytes_decode stdout = Return output ->
  extract_certificates (splitlines output) = block :: blocks ->
  pem_parses_to (block :: blocks) (cert :: certs) ->
  (forall path data,
     output_path args = Some path -> write_file path false data = Return tt) ->
  exists (certs' : list Certificate) (loader_calls : list call),
    Forall2 same_fields (cert :: certs) certs'
    /\ main_after_parse_args args
       = ((RunOpenssl (args_server args) (args_port args)
           :: map Loaded loader_calls
           ++ [match output_path args with
               | Some path =>
                   WroteFile path false
                     (PyStr (str_concat (map pem_block certs')))
               | None => Printed (PyStr (str_concat (map pem_block certs')))
               end])%list,
          Returned).
Proof.
  intros Htest Hformat Hopenssl Hdecode Hblocks Hp Hwrite.
  destruct (lawful_der_reloads L (cert :: certs)) as [certs' [Hders Hsame]].
  assert (Htext : Forall (fun c => utf8_valid (public_bytes PEM c) = true)
                    certs')
    by (apply Forall_forall; intros c _; apply pem_is_text).
  pose proof (certificates_from_stdout_result _ _ _ _ _ _
                Hdecode Hblocks Hp) as Hresult.
  destruct (certificates_from_stdout stdout) as [calls1 o1] eqn:Hrun.
  unfold result, snd in Hresult. subst o1.
  inversion Hsame as [| c0 c0' cs cs' Hsame0 Hsame_rest]; subst.
  simpl map in Hders.
  exists (c0' :: cs'),
         (calls1 ++ map LoadDer (public_bytes DER cert
                                 :: map (public_bytes DER) certs))%list.
  split; [exact Hsame |].
  unfold main_after_parse_args. rewrite Htest.
  unfold retrieve_and_output, get_ldap_ssl_certificates.
  rewrite Hopenssl, Hformat. unfold io_bind at 2.
  rewrite Hrun. unfold io_run at 1. unfold calls, result, fst, snd.
  unfold io_bind at 1.
  rewrite (main_bundle_pem _ _ _ _ Hders Htext).
  unfold io_run, calls, result, fst, snd. unfold io_bind.
  change ("pem" =? "der")%string with false.
  destruct (output_path args) as [path |] eqn:Hpath.
  - rewrite (Hwrite path _ eq_refl).
    rewrite map_app, <- !app_assoc. reflexivity.
  - unfold print. rewrite map_app, <- !app_assoc. reflexivity.
Qed.

(** X14: when [--test] is not given and no line of the output of openssl
    closes a certificate block, [main] runs openssl, prints in red
    [Error: No certificates found in the server response] and exits with
    status 1; it prints no bundle and writes no file. *)
Theorem main_reports_no_certificate
  (args : arguments) (stdout : bytes) (output : string) :
  args_test args = false ->
  openssl_s_client (args_server args) (args_port args) = Return stdout ->
  bytes_decode stdout = Return output ->
  Forall (fun line => closes_block line = false) (splitlines output) ->
  main_after_parse_args args
  = ([RunOpenssl (args_server args) (args_port args);
      Printed (PyStr (Colors_RED
                      ++ "Error: No certificates found in the server response"
                      ++ Colors_ENDC))],
     Exited 1).
Proof.
  intros Htest Hopenssl Hdecode Hnone.
  pose proof (certificates_from_stdout_none _ _ Hdecode Hnone) as Hrun.
  unfold main_after_parse_args. rewrite Htest.
  unfold retrieve_and_output, get_ldap_ssl_certificates.
  rewrite Hopenssl. unfold io_bind at 2. rewrite Hrun. reflexivity.
Qed.

Lemma filter_none {A : Type} (f : A -> bool) (l : list A) :
  Forall (fun x => f x = false) l -> filter f l = [].
Proof.
  induction 1 as [| x l Hx _ IH]; simpl; [| rewrite Hx]; auto.
Qed.

Lemma loaded_events_quiet (loader_calls : list call) :
  Forall (fun ev => runs_openssl ev = false) (map Loaded loader_calls).
Proof. apply Forall_forall. intros ev Hev. apply in_map_iff in Hev.
  destruct Hev as [c [<- _]]. reflexivity.
Qed.

(** One attempt runs openssl once, first of all, against the server it is
    given. *)
Lemma retrieve_and_output_events (args : arguments) (server : string) :
  exists (rest : list event) (o : outcome unit),
    retrieve_and_output args server
    = (RunOpenssl server (args_port args) :: rest, o)
    /\ Forall (fun ev => runs_openssl ev = false) rest.
Proof.
  unfold retrieve_and_output, get_ldap_ssl_certificates.
  destruct (openssl_s_client server (args_port args)) as [stdout | e].
  - unfold io_bind at 2.
    destruct (certificates_from_stdout stdout) as [calls1 [dict | e1]].
    + unfold io_run at 1. unfold calls, result, fst, snd. unfold io_bind at 1.
      destruct (main_bundle dict (args_format args)) as [calls2 [bundle | e2]].
      * unfold io_run, calls, result, fst, snd. unfold io_bind.
        destruct (output_path args) as [path |].
        -- eexists. eexists. split; [reflexivity |].
           repeat (apply Forall_app; split); try apply loaded_events_quiet.
           repeat constructor.
        -- eexists. eexists. split; [reflexivity |].
           repeat (apply Forall_app; split); try apply loaded_events_quiet.
           repeat constructor.
      * unfold io_run, calls, result, fst, snd. unfold io_bind.
        eexists. eexists. split; [reflexivity |].
        repeat (apply Forall_app; split); apply loaded_events_quiet.
    + unfold io_run, calls, result, fst, snd. unfold io_bind.
      eexists. eexists. split; [reflexivity |]. apply loaded_events_quiet.
  - eexists. eexists. split; [reflexivity |]. constructor.
Qed.

(** X15: with [--test], openssl is run against [ldap.google.com] and,
    exactly when that attempt raised, against [ldap.forumsys.com] after
    it; it is run against nothing else, [args.server] included. *)
Theorem test_mode_runs_openssl (args : arguments) :
  args_test args = true ->
  filter runs_openssl (fst (main_after_parse_args args))
  = match snd (retrieve_and_output args "ldap.google.com") with
    | Return _ => [RunOpenssl "ldap.google.com" (args_port args)]
    | Raise _ =>
        [RunOpenssl "ldap.google.com" (args_port args);
         RunOpenssl "ldap.forumsys.com" (args_port args)]
    end.
Proof.
  intros Htest. unfold main_after_parse_args. rewrite Htest.
  destruct (retrieve_and_output_events args "ldap.google.com")
    as [rest1 [o1 [E1 Q1]]].
  destruct (retrieve_and_output_events args "ldap.forumsys.com")
    as [rest2 [o2 [E2 Q2]]].
  cbn [try_test_servers]. unfold print_colored, print.
  unfold io_bind. rewrite E1, E2. unfold result, snd, fst.
  destruct o1 as [u1 | e1].
  - simpl. rewrite (filter_none _ _ Q1). reflexivity.
  - destruct o2 as [u2 | e2]; simpl;
      rewrite filter_app, (filter_none _ _ Q1); simpl;
      rewrite ?filter_app, (filter_none _ _ Q2); reflexivity.
Qed.

(** X16: with [--test], [main] returns as soon as an attempt returns, and
    when both attempts raise it exits with status 1 after printing, in
    red, that all test servers failed, with the text of the exception of
    the second server. *)
Theorem test_mode_ending (args : arguments) :
  args_test args = true ->
  snd (main_after_parse_args args)
  = match snd (retrieve_and_output args "ldap.google.com"),
          snd (retrieve_and_output args "ldap.forumsys.com") with
    | Raise _, Raise _ => Exited 1
    | _, _ => Returned
    end
  /\ forall e1 e2 : exn,
       snd (retrieve_and_output args "ldap.google.com") = Raise e1 ->
       snd (retrieve_and_output args "ldap.forumsys.com") = Raise e2 ->
       exists before : list event,
         fst (main_after_parse_args args)
         = (before
            ++ [Printed
                  (PyStr (Colors_RED
                          ++ "Error: All test servers failed. Last error: "
                          ++ str_of_exn e2 ++ Colors_ENDC))])%list.
Proof.
  intros Htest. unfold main_after_parse_args. rewrite Htest.
  cbn [try_test_servers]. unfold print_colored, print. unfold io_bind.
  destruct (retrieve_and_output args "ldap.google.com") as [log1 [u1 | e1]];
    destruct (retrieve_and_output args "ldap.forumsys.com")
      as [log2 [u2 | e2]];
    unfold result, snd, fst; (split; [reflexivity |]);
    intros x1 x2 H1 H2; try discriminate H1; try discriminate H2.
  injection H2 as <-.
  eexists. rewrite !app_assoc. reflexivity.
Qed.

End ToolProperties.

(** ** The small machine: concrete runs *)

Lemma sample_backend_lawful : LawfulBackend Sample.backend.
Proof.
  split.
  - intros [[] [] [] []]; eexists; (split; [reflexivity | repeat split]).
  - intros [[] [] [] []]; eexists; (split; [reflexivity | repeat split]).
  - intros [[] [] [] []]; reflexivity.
Qed.

Lemma extract_certificates_round_trip_witness :
  extract_certificates
    (output_lines Sample.chain_output ++ Sample.chain_trailing)%list
  = map (fun item => join_lines (block_lines (snd item))) Sample.chain_output.
Proof.
  apply (extract_certificates_round_trip
           Sample.chain_output Sample.chain_trailing).
  - repeat constructor.
  - repeat constructor.
Defined.

Lemma extract_certificates_from_text_witness :
  extract_certificates
    (splitlines
       (join_lines
          (output_lines Sample.chain_output ++ Sample.chain_trailing)%list))
  = map (fun item => join_lines (block_lines (snd item))) Sample.chain_output.
Proof.
  apply (extract_certificates_from_text
           Sample.chain_output Sample.chain_trailing).
  - repeat constructor.
  - repeat constructor.
  - repeat constructor.
  - discriminate.
Defined.

Lemma certificates_from_stdout_returns_witness :
  result (certificates_from_stdout (X := Sample.backend) Sample.chain_stdout)
  = Return
      {| peer_certificate := Reference.to_der Reference.leaf;
         peer_certificate_chain :=
           [Reference.to_der Reference.intermediate;
            Reference.to_der Reference.root] |}.
Proof.
  apply (certificates_from_stdout_returns (X := Sample.backend)
           Sample.chain_stdout (string_of_list_byte Sample.chain_stdout)
           (join_lines (block_lines (Sample.shown Reference.leaf)))
           [join_lines (block_lines (Sample.shown Reference.intermediate));
            join_lines (block_lines (Sample.shown Reference.root))]
           Reference.leaf [Reference.intermediate; Reference.root]).
  - reflexivity.
  - reflexivity.
  - repeat constructor.
Defined.

Lemma certificates_from_stdout_finds_none_witness :
  certificates_from_stdout (X := Sample.backend) Sample.truncated_stdout
  = ([], Raise (OtherException
                  "No certificates found in the server response")).
Proof.
  apply (certificates_from_stdout_finds_none (X := Sample.backend)
           Sample.truncated_stdout
           (string_of_list_byte Sample.truncated_stdout)).
  - reflexivity.
  - repeat constructor.
Defined.

Lemma certificates_from_stdout_bad_block_witness :
  certificates_from_stdout (X := Sample.backend) Sample.corrupt_stdout
  = (map (fun b => LoadPem (str_encode b))
       [join_lines (block_lines (Sample.shown Reference.leaf));
        join_lines (block_lines Sample.corrupt_block)],
     Raise (ValueError "Unable to load PEM file")).
Proof.
  apply (certificates_from_stdout_bad_block (X := Sample.backend)
           Sample.corrupt_stdout
           (string_of_list_byte Sample.corrupt_stdout)
           [join_lines (block_lines (Sample.shown Reference.leaf))]
           [join_lines (block_lines (Sample.shown Reference.root))]
           (join_lines (block_lines Sample.corrupt_block))
           [Reference.leaf]).
  - reflexivity.
  - reflexivity.
  - repeat constructor.
  - reflexivity.
Defined.

Lemma reference_names_readable (certs : list Reference.cert) :
  names_readable (X := Reference.backend) certs.
Proof.
  apply Forall_forall. intros c _. split; eexists; reflexivity.
Qed.

Lemma validate_rejects_exactly_witness :
  exists msg,
    result (validate_certificate_chain (X := Reference.backend)
              (map Reference.to_der
                 [Reference.leaf; Reference.stray; Reference.root]))
    = Return (false, msg).
Proof.
  apply (proj2 (validate_rejects_exactly (X := Reference.backend)
                  (map Reference.to_der
                     [Reference.leaf; Reference.stray; Reference.root])
                  [Reference.leaf; Reference.stray; Reference.root]
                  ltac:(repeat constructor) ltac:(discriminate)
                  (reference_names_readable _))).
  exists 0%nat, Reference.leaf, Reference.stray.
  split; [reflexivity |]. split; [reflexivity |].
  split; [| split; [| reflexivity]].
  - exists Reference.CN_intermediate, Reference.CN_other.
    split; [reflexivity | split; [reflexivity | discriminate]].
  - intros j c c' Hj. exfalso. lia.
Defined.

Lemma validate_accepts_ordered_chains_witness :
  exists msg,
    result (validate_certificate_chain (X := Reference.backend)
              (map Reference.to_der
                 [Reference.leaf; Reference.intermediate; Reference.root]))
    = Return (true, msg).
Proof.
  apply (proj2 (validate_accepts_ordered_chains (X := Reference.backend)
                  (map Reference.to_der
                     [Reference.leaf; Reference.intermediate; Reference.root])
                  [Reference.leaf; Reference.intermediate; Reference.root]
                  ltac:(repeat constructor) ltac:(discriminate)
                  (reference_names_readable _)
                  ltac:(intros [| [| i]] c Hi Hc;
                        [injection Hc as <-; reflexivity
                        | injection Hc as <-; reflexivity
                        | exfalso; simpl in Hi; lia]))).
  intros j c c' Hc Hc'.
  destruct j as [| [| j]].
  - injection Hc as <-. injection Hc' as <-.
    exists Reference.CN_intermediate. split; reflexivity.
  - injection Hc as <-. injection Hc' as <-.
    exists Reference.CN_root. split; reflexivity.
  - destruct j; discriminate Hc'.
Defined.

Lemma validate_loads_whole_chain_witness :
  calls (validate_certificate_chain (X := Reference.backend)
           (map Reference.to_der
              [Reference.leaf; Reference.stray; Reference.root]))
  = map LoadDer
      (map Reference.to_der
         [Reference.leaf; Reference.stray; Reference.root]).
Proof.
  apply (validate_loads_whole_chain (X := Reference.backend)
           (map Reference.to_der
              [Reference.leaf; Reference.stray; Reference.root])
           [Reference.leaf; Reference.stray; Reference.root]).
  repeat constructor.
Defined.

Lemma validate_stops_loading_witness :
  calls (validate_certificate_chain (X := Reference.backend)
           [Reference.to_der Reference.leaf; Reference.garbage;
            Reference.to_der Reference.root])
  = [LoadDer (Reference.to_der Reference.leaf); LoadDer Reference.garbage].
Proof.
  apply (validate_stops_loading (X := Reference.backend)
           [Reference.to_der Reference.leaf]
           [Reference.to_der Reference.root]
           Reference.garbage [Reference.leaf]
           (ValueError "error parsing asn1 value: unexpected tag")).
  - repeat constructor.
  - reflexivity.
Defined.

Lemma main_bundle_der_passes_chain_through_witness :
  main_bundle (X := Reference.backend)
    {| peer_certificate := Reference.to_der Reference.leaf;
       peer_certificate_chain := [Reference.garbage] |} "der"
  = ([LoadDer (Reference.to_der Reference.leaf)],
     Return (PyBytes (Reference.to_der Reference.leaf
                      ++ Reference.garbage)%list)).
Proof.
  apply (main_bundle_der_passes_chain_through (X := Reference.backend)
           (Reference.to_der Reference.leaf) [Reference.garbage]
           Reference.leaf).
  reflexivity.
Defined.

Lemma main_bundle_pem_raises_witness :
  exists certificates : certificates_dict,
    returned_certificates
      [Reference.to_der Reference.leaf; Reference.garbage;
       Reference.to_der Reference.root]
    = Return certificates
    /\ main_bundle (X := Reference.backend) certificates "pem"
       = ([LoadDer (Reference.to_der Reference.leaf);
           LoadDer Reference.garbage],
          Raise (ValueError "error parsing asn1 value: unexpected tag")).
Proof.
  apply (main_bundle_pem_raises (X := Reference.backend)
           [Reference.to_der Reference.leaf]
           [Reference.to_der Reference.root]
           Reference.garbage [Reference.leaf]
           (ValueError "error parsing asn1 value: unexpected tag")).
  - repeat constructor.
  - repeat constructor.
  - reflexivity.
Defined.

Lemma main_outputs_pem_bundle_witness :
  exists (certs' : list Reference.cert) (loader_calls : list call),
    Forall2 (same_fields (X := Sample.backend))
      [Reference.leaf; Reference.intermediate; Reference.root] certs'
    /\ main_after_parse_args (X := Sample.backend) (H := Sample.host)
         (Sample.arguments_for "ldap.example.com" false "pem" None)
       = ((RunOpenssl "ldap.example.com" 636
           :: map Loaded loader_calls
           ++ [Printed
                 (PyStr (str_concat
                           (map (pem_block (X := Sample.backend)) certs')))])
            %list,
          Returned).
Proof.
  exact (main_outputs_pem_bundle (X := Sample.backend) (W := Sample.host)
           sample_backend_lawful
           (Sample.arguments_for "ldap.example.com" false "pem" None)
           Sample.chain_stdout (string_of_list_byte Sample.chain_stdout)
           (join_lines (block_lines (Sample.shown Reference.leaf)))
           [join_lines (block_lines (Sample.shown Reference.intermediate));
            join_lines (block_lines (Sample.shown Reference.root))]
           Reference.leaf [Reference.intermediate; Reference.root]
           eq_refl eq_refl eq_refl eq_refl eq_refl
           ltac:(repeat constructor)
           ltac:(intros path data Hpath; discriminate Hpath)).
Defined.

Lemma main_reports_no_certificate_witness :
  main_after_parse_args (X := Sample.backend) (H := Sample.host)
    (Sample.arguments_for "ldap.unreachable.test" false "pem" None)
  = ([RunOpenssl "ldap.unreachable.test" 636;
      Printed (PyStr (Colors_RED
                      ++ "Error: No certificates found in the server response"
                      ++ Colors_ENDC))],
     Exited 1).
Proof.
  apply (main_reports_no_certificate (X := Sample.backend) (W := Sample.host)
           (Sample.arguments_for "ldap.unreachable.test" false "pem" None)
           [] EmptyString).
  - reflexivity.
  - reflexivity.
  - reflexivity.
  - constructor.
Defined.

Lemma test_mode_runs_openssl_witness :
  filter runs_openssl
    (fst (main_after_parse_args (X := Sample.backend) (H := Sample.host)
            (Sample.arguments_for "ldap.example.com" true "pem" None)))
  = [RunOpenssl "ldap.google.com" 636; RunOpenssl "ldap.forumsys.com" 636].
Proof.
  apply (test_mode_runs_openssl (X := Sample.backend) (W := Sample.host)
           (Sample.arguments_for "ldap.example.com" true "pem" None)).
  reflexivity.
Defined.

Lemma test_mode_ending_witness :
  snd (main_after_parse_args (X := Sample.backend) (H := Sample.host)
         (Sample.arguments_for "ldap.example.com" true "pem" None))
  = Returned
  /\ snd (main_after_parse_args (X := Sample.backend) (H := Sample.host)
            (Sample.arguments_for "ldap.example.com" true "pem"
               (Some "/proc/bundle.pem")))
     = Exited 1.
Proof.
  split.
  - apply (proj1 (test_mode_ending (X := Sample.backend) (W := Sample.host)
                    (Sample.arguments_for "ldap.example.com" true "pem" None)
                    eq_refl)).
  - apply (proj1 (test_mode_ending (X := Sample.backend) (W := Sample.host)
                    (Sample.arguments_for "ldap.example.com" true "pem"
                       (Some "/proc/bundle.pem"))
                    eq_refl)).
Defined.
